(** * Unolo field-force tracker: the daily summary report and the check-in race

    A shallow embedding of [backend/routes/reports.js] (the
    [GET /api/reports/daily-summary] route), of the middleware it is mounted
    behind, and of the read-then-insert sequence of [POST /api/checkin] quoted
    in [QUESTIONS.md], together with the properties of the written
    specification that concern them.

    Conventions.
    - A table is the list of its rows, in storage order.
    - SQL [INTEGER] columns are [Z]; row counts are [nat].
    - JavaScript numbers and SQLite [REAL]s that hold hours are exact
      rationals ([Q]): sums and [Math.round] are modelled without binary
      floating-point error.
    - A stored time value is seen through the two SQLite functions the report
      applies to it, [DATE] and [julianday]. *)

From Stdlib Require Import ZArith QArith Qround Qabs List String Ascii Bool.
From Stdlib Require Import Lia Lqa Permutation Sorted OrderedTypeEx.
Import ListNotations.

Set Implicit Arguments.

(* ================================================================== *)
(** * Relational operators *)
(* ================================================================== *)

Module Sql.

Section Joins.
Variables A B : Type.
Variable on : A -> B -> bool.

(** The rows a left row contributes to a left join: one per partner, or
    one padded with NULLs when it has no partner. *)
Definition left_rows (r : list B) (a : A) : list (A * option B) :=
  match filter (on a) r with
  | [] => [(a, None)]
  | partners => map (fun b => (a, Some b)) partners
  end.

(** [FROM l a LEFT JOIN r b ON on a b] *)
Definition left_join (l : list A) (r : list B) : list (A * option B) :=
  flat_map (left_rows r) l.

(** [FROM l a INNER JOIN r b ON on a b]. *)
Definition inner_join (l : list A) (r : list B) : list (A * B) :=
  flat_map (fun a => map (fun b => (a, b)) (filter (on a) r)) l.
End Joins.

Section Grouping.
Variables R K : Type.
Variable K_eq_dec : forall x y : K, {x = y} + {x <> y}.
Variable key : R -> K.

(** [GROUP BY key]: one group per distinct key value, holding the rows that
    carry it. *)
Definition group_by (rows : list R) : list (K * list R) :=
  map (fun k => (k, filter (fun r => if K_eq_dec (key r) k then true else false) rows))
      (nodup K_eq_dec (map key rows)).
End Grouping.

(** Drops the NULLs of a column. *)
Fixpoint non_null {A : Type} (col : list (option A)) : list A :=
  match col with
  | [] => []
  | Some a :: col' => a :: non_null col'
  | None :: col' => non_null col'
  end.

(** [COUNT(col)]: the number of non-NULL values. *)
Definition COUNT {A : Type} (col : list (option A)) : nat :=
  List.length (non_null col).

(** [COUNT(DISTINCT col)] on an integer column. *)
Definition COUNT_DISTINCT (col : list (option Z)) : nat :=
  List.length (nodup Z.eq_dec (non_null col)).

(** [SUM(col)]: NULL on an input without non-NULL value. *)
Definition SUM (col : list (option Q)) : option Q :=
  match non_null col with
  | [] => None
  | vs => Some (fold_left Qplus vs 0%Q)
  end.

Definition COALESCE {A : Type} (v : option A) (default : A) : A :=
  match v with
  | Some a => a
  | None => default
  end.

Section Ordering.
Variable R : Type.
Variable col : R -> string.

Fixpoint insert_row (r : R) (sorted : list R) : list R :=
  match sorted with
  | [] => [r]
  | r' :: rest =>
      if String.leb (col r) (col r') then r :: sorted
      else r' :: insert_row r rest
  end.

(** [ORDER BY col] (ascending, bytewise comparison of the text; rows with
    equal [col] keep their relative order). *)
Definition order_by (rows : list R) : list R :=
  fold_right insert_row [] rows.
End Ordering.

End Sql.

(* ================================================================== *)
(** * Schema *)
(* ================================================================== *)

(** A stored time value as [DATE(t)] and [julianday(t)] see it: its calendar
    date, as the text [YYYY-MM-DD], and its Julian day number, in days. *)
Record sqltime := { DATE : string; julianday : Q }.

(** A row of [users]. *)
Record user := {
  u_id : Z;
  u_name : string;
  u_email : string;
  u_role : string;
  u_manager_id : option Z
}.

(** A row of [checkins]. *)
Record checkin := {
  ch_id : Z;
  ch_employee_id : Z;
  ch_client_id : Z;
  ch_checkin_time : sqltime;
  ch_checkout_time : option sqltime;
  ch_status : string
}.

Record database := { users : list user; checkins : list checkin }.

(** [u.manager_id = ?]: never true of a NULL [manager_id]. *)
Definition manager_is (u : user) (manager : Z) : bool :=
  match u_manager_id u with
  | Some m => (m =? manager)%Z
  | None => false
  end.

(* ================================================================== *)
(** * The two queries of the report ([reports.js], lines 36-64 and 76-81) *)
(* ================================================================== *)

(** A row of the employee breakdown: what [employeeQuery] selects, and, with
    [hours_worked] rounded, what the response lists. *)
Module Emp.
Record t := {
  employee_id : Z;
  employee_name : string;
  employee_email : string;
  total_checkins : nat;
  clients_visited : nat;
  hours_worked : Q
}.
End Emp.

Module Team.
Record t := {
  total_employees : nat;
  employees_checked_in : nat;
  total_checkins : nat;
  total_hours_worked : Q;
  unique_clients_visited : nat
}.
End Team.

Module Reports.

Definition joined : Type := user * option checkin.
Definition group_key : Type := Z * string * string.

Definition group_key_eq_dec (x y : group_key) : {x = y} + {x <> y}.
Proof. repeat decide equality. Defined.

(** [users u LEFT JOIN checkins ch ON u.id = ch.employee_id
      AND DATE(ch.checkin_time) = ?] *)
Definition employeeQuery_on (date : string) (u : user) (ch : checkin) : bool :=
  (u_id u =? ch_employee_id ch)%Z && (DATE (ch_checkin_time ch) =? date)%string.

(** [WHERE u.manager_id = ? AND u.role = 'employee'], and [AND u.id = ?] when
    the request carries an [employee_id]. *)
Definition employeeQuery_where (manager : Z) (employee_id : option Z)
    (row : joined) : bool :=
  manager_is (fst row) manager
  && (u_role (fst row) =? "employee")%string
  && match employee_id with
     | Some e => (u_id (fst row) =? e)%Z
     | None => true
     end.

(** [GROUP BY u.id, u.name, u.email] *)
Definition employeeQuery_key (row : joined) : group_key :=
  (u_id (fst row), u_name (fst row), u_email (fst row)).

(** [CASE WHEN ch.checkout_time IS NOT NULL
          THEN (julianday(ch.checkout_time) - julianday(ch.checkin_time)) * 24
          ELSE 0 END] *)
Definition hours_case (row : joined) : Q :=
  match snd row with
  | Some ch =>
      match ch_checkout_time ch with
      | Some out => (julianday out - julianday (ch_checkin_time ch)) * 24
      | None => 0
      end
  | None => 0
  end.

(** The select list, evaluated on one group. *)
Definition employeeQuery_select (g : group_key * list joined) : Emp.t :=
  let '((id, name, email), rows) := g in
  {| Emp.employee_id := id;
     Emp.employee_name := name;
     Emp.employee_email := email;
     Emp.total_checkins := Sql.COUNT (map (fun r => option_map ch_id (snd r)) rows);
     Emp.clients_visited :=
       Sql.COUNT_DISTINCT (map (fun r => option_map ch_client_id (snd r)) rows);
     Emp.hours_worked :=
       Sql.COALESCE (Sql.SUM (map (fun r => Some (hours_case r)) rows)) 0%Q |}.

Definition employeeQuery (db : database) (date : string) (manager : Z)
    (employee_id : option Z) : list Emp.t :=
  Sql.order_by Emp.employee_name
    (map employeeQuery_select
       (Sql.group_by group_key_eq_dec employeeQuery_key
          (filter (employeeQuery_where manager employee_id)
             (Sql.left_join (employeeQuery_on date) (users db) (checkins db))))).

(** [SELECT COUNT(DISTINCT ch.client_id) as unique_clients
     FROM checkins ch INNER JOIN users u ON ch.employee_id = u.id
     WHERE u.manager_id = ? AND DATE(ch.checkin_time) = ?]
    An aggregate without [GROUP BY] returns exactly one row. *)
Definition uniqueClientsQuery (db : database) (manager : Z) (date : string)
    : list nat :=
  [ Sql.COUNT_DISTINCT
      (map (fun r : checkin * user => Some (ch_client_id (fst r)))
         (filter
            (fun r : checkin * user =>
               manager_is (snd r) manager
               && (DATE (ch_checkin_time (fst r)) =? date)%string)
            (Sql.inner_join
               (fun ch u => (ch_employee_id ch =? u_id u)%Z)
               (checkins db) (users db)))) ].

End Reports.

(* ================================================================== *)
(** * The HTTP layer *)
(* ================================================================== *)

(** The JSON bodies the route and its middleware send. *)
Inductive body :=
| Failure (message : string)
    (** [{ success: false, message }] (the middleware omits [success]) *)
| Report (date : string) (team_summary : Team.t) (employee_breakdown : list Emp.t).
    (** [{ success: true, data: { date, team_summary, employee_breakdown } }] *)

Record response := { status : Z; json : body }.

(** [req.query] of the route: [employee_id] is the integer SQLite compares
    with [u.id]; an absent or empty parameter is [None]. *)
Record query_params := { q_date : option string; q_employee_id : option Z }.

(** The payload of a verified token, stored in [req.user]. *)
Record jwt_user := { jwt_id : Z; jwt_role : string }.

(** A request as it arrives, and once [authenticateToken] has set [req.user]. *)
Record raw_request := { token : string; raw_query : query_params }.
Record request := { req_user : jwt_user; req_query : query_params }.

(** ** Statements sent to the pool *)

Inductive sql_call :=
| Call_employeeQuery (date : string) (manager : Z) (employee_id : option Z)
| Call_uniqueClients (manager : Z) (date : string).

(** [pool.execute] for the two statements of the route; [None] is a rejected
    promise (the store is unreachable, the statement fails). *)
Record Pool := {
  execute_employeeQuery : string -> Z -> option Z -> option (list Emp.t);
  execute_uniqueClients : Z -> string -> option (list nat)
}.

(** The pool of a reachable store holding [db]. *)
Definition sqlite (db : database) : Pool :=
  {| execute_employeeQuery := fun date manager employee_id =>
       Some (Reports.employeeQuery db date manager employee_id);
     execute_uniqueClients := fun manager date =>
       Some (Reports.uniqueClientsQuery db manager date) |}.

(** ** Handler computations

    A handler body runs against the log of the statements executed so far and
    either returns or throws. *)
Definition Exec (A : Type) : Type := list sql_call -> option A * list sql_call.

Definition ret {A : Type} (a : A) : Exec A := fun log => (Some a, log).

Definition bind {A B : Type} (m : Exec A) (k : A -> Exec B) : Exec B :=
  fun log =>
    match m log with
    | (Some a, log') => k a log'
    | (None, log') => (None, log')
    end.

(** [await pool.execute(sql, params)]: the call is logged, the rows returned
    or the rejection thrown. *)
Definition await_execute {A : Type} (call : sql_call) (rows : option A) : Exec A :=
  fun log => (rows, log ++ [call]).

(** [try { body } catch (error) { handler }] around a whole handler: the
    response sent and the statements executed. *)
Definition try_catch {A : Type} (m : Exec A) (handler : A) : A * list sql_call :=
  match m [] with
  | (Some a, log) => (a, log)
  | (None, log) => (handler, log)
  end.

Declare Scope exec_scope.
Delimit Scope exec_scope with exec.
Notation "x <- m ;; k" := (bind m (fun x => k))
  (at level 61, m at next level, right associativity) : exec_scope.

(** ** JavaScript helpers *)

(** [Math.round]: the nearest integer, halves towards positive infinity. *)
Definition Math_round (x : Q) : Z := Qfloor (x + (1 # 2)).

(** [Math.round(x * 10) / 10] *)
Definition round1 (x : Q) : Q := inject_Z (Math_round (x * 10)) / 10.

(** [\d] *)
Definition is_digit (c : ascii) : bool :=
  (48 <=? nat_of_ascii c)%nat && (nat_of_ascii c <=? 57)%nat.

(** [\d{n}]: consumes [n] digits and returns the rest of the input. *)
Fixpoint digits (n : nat) (s : string) : option string :=
  match n with
  | O => Some s
  | S n' =>
      match s with
      | String c rest => if is_digit c then digits n' rest else None
      | EmptyString => None
      end
  end.

(** A literal character. *)
Definition lit (c : ascii) (s : string) : option string :=
  match s with
  | String c' rest => if Ascii.eqb c' c then Some rest else None
  | EmptyString => None
  end.

Definition and_then (r : option string) (p : string -> option string)
    : option string :=
  match r with
  | Some rest => p rest
  | None => None
  end.

(** [/^\d{4}-\d{2}-\d{2}$/.test(s)]: the pattern has no alternative and no
    repetition of variable length, so matching is one left-to-right pass that
    must end at the end of the input. *)
Definition dateRegex_test (s : string) : bool :=
  match
    and_then (and_then (and_then (and_then (digits 4 s) (lit "-"))
                                 (digits 2)) (lit "-")) (digits 2)
  with
  | Some EmptyString => true
  | _ => false
  end.

(** ** [GET /api/reports/daily-summary] *)

Module DailySummary.

Local Open Scope exec_scope.

Definition missing_date : response :=
  {| status := 400;
     json := Failure "Date parameter is required (YYYY-MM-DD format)" |}.

Definition invalid_date : response :=
  {| status := 400; json := Failure "Invalid date format. Use YYYY-MM-DD" |}.

Definition failed : response :=
  {| status := 500; json := Failure "Failed to generate daily summary report" |}.

(** [uniqueClients[0]?.unique_clients || 0] *)
Definition first_unique_clients (uniqueClients : list nat) : nat :=
  match uniqueClients with
  | n :: _ => if (n =? 0)%nat then 0%nat else n
  | [] => 0%nat
  end.

(** The aggregates computed in JavaScript from the rows of [employeeQuery]
    (lines 67-73); [unique_clients_visited] is filled in afterwards. *)
Definition teamSummary (employees : list Emp.t) : Team.t :=
  {| Team.total_employees := List.length employees;
     Team.employees_checked_in :=
       List.length (filter (fun e => (0 <? Emp.total_checkins e)%nat) employees);
     Team.total_checkins :=
       fold_left (fun sum e => (sum + Emp.total_checkins e)%nat) employees 0%nat;
     Team.total_hours_worked :=
       round1 (fold_left (fun sum e => sum + Emp.hours_worked e) employees 0);
     Team.unique_clients_visited := 0 |}.

(** [teamSummary.unique_clients_visited = ...] (line 83) *)
Definition set_unique_clients_visited (t : Team.t) (n : nat) : Team.t :=
  {| Team.total_employees := Team.total_employees t;
     Team.employees_checked_in := Team.employees_checked_in t;
     Team.total_checkins := Team.total_checkins t;
     Team.total_hours_worked := Team.total_hours_worked t;
     Team.unique_clients_visited := n |}.

(** [employees.map(emp => ({ ..., hours_worked: Math.round(emp.hours_worked * 10) / 10 }))]
    (lines 86-93) *)
Definition employeeBreakdown (employees : list Emp.t) : list Emp.t :=
  map (fun emp =>
         {| Emp.employee_id := Emp.employee_id emp;
            Emp.employee_name := Emp.employee_name emp;
            Emp.employee_email := Emp.employee_email emp;
            Emp.total_checkins := Emp.total_checkins emp;
            Emp.clients_visited := Emp.clients_visited emp;
            Emp.hours_worked := round1 (Emp.hours_worked emp) |})
      employees.

(** The body of the [try] block (lines 16-102). *)
Definition body_of (pool : Pool) (req : request) : Exec response :=
  match q_date (req_query req) with
  | None | Some EmptyString => ret missing_date          (* [!date] *)
  | Some date =>
      if negb (dateRegex_test date) then ret invalid_date
      else
        let employee_id := q_employee_id (req_query req) in
        employees <-
          await_execute
            (Call_employeeQuery date (jwt_id (req_user req)) employee_id)
            (execute_employeeQuery pool date (jwt_id (req_user req)) employee_id) ;;
        let teamSummary := teamSummary employees in
        uniqueClients <-
          await_execute
            (Call_uniqueClients (jwt_id (req_user req)) date)
            (execute_uniqueClients pool (jwt_id (req_user req)) date) ;;
        let teamSummary :=
          set_unique_clients_visited teamSummary
            (first_unique_clients uniqueClients) in
        ret {| status := 200;
               json := Report date teamSummary (employeeBreakdown employees) |}
  end.

Definition handler (pool : Pool) (req : request) : response * list sql_call :=
  try_catch (body_of pool req) failed.

End DailySummary.

(** ** Middleware ([backend/middleware/auth.js], as quoted in
    [QUESTIONS.md], lines 152-158 and 167-172) *)

Inductive middleware_result :=
| Responded (r : response)     (** the middleware answered; the chain stops *)
| Next (req : request).        (** [next()] *)

Definition invalid_token : response :=
  {| status := 403; json := Failure "Invalid or expired token" |}.

Definition manager_required : response :=
  {| status := 403; json := Failure "Manager access required" |}.

(** [if (req.user.role !== 'manager') return res.status(403).json(...); next();] *)
Definition requireManager (req : request) : middleware_result :=
  if negb (jwt_role (req_user req) =? "manager")%string
  then Responded manager_required
  else Next req.

Section Route.
(** [jwt.verify(token, JWT_SECRET, ...)]: the payload of a valid token, or
    [None] for the [err] branch. *)
Variable jwt_verify : string -> option jwt_user.

(** [jwt.verify(token, JWT_SECRET, (err, user) => { if (err) return 403;
    req.user = user; next(); })] *)
Definition authenticateToken (req : raw_request) : middleware_result :=
  match jwt_verify (token req) with
  | None => Responded invalid_token
  | Some user => Next {| req_user := user; req_query := raw_query req |}
  end.

(** [router.get('/daily-summary', authenticateToken, requireManager, handler)]:
    the response, and the statements the request made the pool execute. *)
Definition daily_summary_route (pool : Pool) (req : raw_request)
    : response * list sql_call :=
  match authenticateToken req with
  | Responded r => (r, [])
  | Next req1 =>
      match requireManager req1 with
      | Responded r => (r, [])
      | Next req2 => DailySummary.handler pool req2
      end
  end.
End Route.

(* ================================================================== *)
(** * [POST /api/checkin]: the read-then-insert sequence
    ([backend/routes/checkin.js], as quoted in [QUESTIONS.md], lines 194-209) *)
(* ================================================================== *)

Module CheckIn.

(** [SELECT * FROM checkins WHERE employee_id = ? AND status = "checked_in"] *)
Definition activeCheckins (ledger : list checkin) (employee : Z) : list checkin :=
  filter
    (fun ch => (ch_employee_id ch =? employee)%Z
               && (ch_status ch =? "checked_in")%string)
    ledger.

(** [INSERT INTO checkins (employee_id, client_id, ..., status) VALUES (...)]:
    the new row is open and gets the next identifier. *)
Definition insert_checkin (ledger : list checkin) (employee client : Z)
    (now : sqltime) : list checkin :=
  ledger ++ [ {| ch_id := Z.of_nat (List.length ledger) + 1;
                 ch_employee_id := employee;
                 ch_client_id := client;
                 ch_checkin_time := now;
                 ch_checkout_time := None;
                 ch_status := "checked_in" |} ].

(** [n] inserts in a row. *)
Fixpoint insert_checkins (n : nat) (ledger : list checkin) (employee client : Z)
    (now : sqltime) : list checkin :=
  match n with
  | O => ledger
  | S n' => insert_checkins n' (insert_checkin ledger employee client now)
              employee client now
  end.

Inductive outcome :=
| AlreadyCheckedIn   (** 400, 'You already have an active check-in...' *)
| Created.           (** the row was inserted *)

(** One request in flight.  Node runs a handler without interruption between
    two [await]s, and the store executes one statement at a time, so a
    request is at one of three points. *)
Inductive task :=
| AwaitSelect (employee client : Z) (now : sqltime)
| AwaitInsert (employee client : Z) (now : sqltime)
| Done (o : outcome).

(** The handler of a fresh request. *)
Definition request_for (employee client : Z) (now : sqltime) : task :=
  AwaitSelect employee client now.

(** The pending statement of a task executes and the handler runs up to its
    next [await]. *)
Definition advance (ledger : list checkin) (t : task) : list checkin * task :=
  match t with
  | AwaitSelect employee client now =>
      if (0 <? List.length (activeCheckins ledger employee))%nat
      then (ledger, Done AlreadyCheckedIn)
      else (ledger, AwaitInsert employee client now)
  | AwaitInsert employee client now =>
      (insert_checkin ledger employee client now, Done Created)
  | Done o => (ledger, Done o)
  end.

(** The store and the requests in flight. *)
Definition system : Type := list checkin * list task.

Fixpoint advance_nth (ledger : list checkin) (tasks : list task) (i : nat)
    : system :=
  match tasks, i with
  | [], _ => (ledger, [])
  | t :: rest, O => let (ledger', t') := advance ledger t in (ledger', t' :: rest)
  | t :: rest, S i' =>
      let (ledger', rest') := advance_nth ledger rest i' in (ledger', t :: rest')
  end.

(** One scheduling decision: request [i] makes its next move. *)
Inductive step : system -> system -> Prop :=
| step_task (ledger : list checkin) (tasks : list task) (i : nat) :
    (i < List.length tasks)%nat ->
    step (ledger, tasks) (advance_nth ledger tasks i).

(** Any number of scheduling decisions. *)
Inductive steps : system -> system -> Prop :=
| steps_refl (s : system) : steps s s
| steps_cons (s1 s2 s3 : system) : step s1 s2 -> steps s2 s3 -> steps s1 s3.

(** A schedule names, move after move, the request that runs. *)
Fixpoint run (schedule : list nat) (s : system) : system :=
  match schedule with
  | [] => s
  | i :: schedule' => run schedule' (advance_nth (fst s) (snd s) i)
  end.

Definition outcomes (s : system) : list (option outcome) :=
  map (fun t => match t with Done o => Some o | _ => None end) (snd s).

Definition count_outcome (o : outcome) (s : system) : nat :=
  List.length
    (filter (fun r => match r, o with
                      | Some Created, Created => true
                      | Some AlreadyCheckedIn, AlreadyCheckedIn => true
                      | _, _ => false
                      end) (outcomes s)).

(** [n] simultaneous check-ins of one employee against [ledger]. *)
Definition fire (n : nat) (ledger : list checkin) (employee client : Z)
    (now : sqltime) : system :=
  (ledger, repeat (request_for employee client now) n).

(** Every request reads before any request writes. *)
Definition all_read_then_all_write (n : nat) : list nat := seq 0 n ++ seq 0 n.

(** The verify step and the insert step of each request run back to back,
    for the [n] requests from [k] on. *)
Definition one_at_a_time_from (k n : nat) : list nat :=
  flat_map (fun i => [i; i]) (seq k n).

Definition one_at_a_time (n : nat) : list nat := one_at_a_time_from 0 n.

End CheckIn.

(* ================================================================== *)
(** * Specification-side notions *)
(* ================================================================== *)

Module Spec.

(** A decimal digit, as a character. *)
Definition decimal_digit (c : ascii) : Prop :=
  In c ["0"; "1"; "2"; "3"; "4"; "5"; "6"; "7"; "8"; "9"]%char.

(** The shape [YYYY-MM-DD]: four digits, a dash, two digits, a dash, two
    digits, and nothing else. *)
Definition YYYY_MM_DD (s : string) : Prop :=
  exists y1 y2 y3 y4 m1 m2 d1 d2 : ascii,
    Forall decimal_digit [y1; y2; y3; y4; m1; m2; d1; d2] /\
    s = string_of_list_ascii [y1; y2; y3; y4; "-"; m1; m2; "-"; d1; d2]%char.

(** The date parameter of a request is missing (absent or empty) or
    malformed. *)
Definition missing_or_malformed (date : option string) : Prop :=
  match date with
  | None => True
  | Some d => d = EmptyString \/ ~ YYYY_MM_DD d
  end.

(** Hours contributed by one check-in: checkout minus check-in, in hours,
    when the check-in is closed; nothing while it is open. *)
Definition hours_of (ch : checkin) : Q :=
  match ch_checkout_time ch with
  | Some out => 24 * (julianday out - julianday (ch_checkin_time ch))
  | None => 0
  end.

(** The check-ins of [employee] whose check-in time falls on [date]. *)
Definition checkins_on (db : database) (employee : Z) (date : string)
    : list checkin :=
  filter (fun ch => (ch_employee_id ch =? employee)%Z
                    && (DATE (ch_checkin_time ch) =? date)%string)
         (checkins db).

(** [u] reports to [manager] and its role is exactly ['employee']. *)
Definition managed_employee (manager : Z) (u : user) : Prop :=
  u_manager_id u = Some manager /\ u_role u = "employee"%string.

(** [u] reports to [manager], whatever its role. *)
Definition reports_to (manager : Z) (u : user) : Prop :=
  u_manager_id u = Some manager.

(** The check-ins on [date] of the users reporting to [manager]. *)
Definition team_checkins_on (db : database) (manager : Z) (date : string)
    : list checkin :=
  filter (fun ch =>
            existsb (fun u => (u_id u =? ch_employee_id ch)%Z
                              && manager_is u manager) (users db)
            && (DATE (ch_checkin_time ch) =? date)%string)
         (checkins db).

Fixpoint Qsum (l : list Q) : Q :=
  match l with
  | [] => 0
  | x :: l' => x + Qsum l'
  end.

(** [u] is in the scope of a report of [manager]: a managed employee and,
    when the request names an employee, that employee. *)
Definition in_scope (manager : Z) (employee_id : option Z) (u : user) : Prop :=
  managed_employee manager u /\
  match employee_id with
  | Some e => u_id u = e
  | None => True
  end.

(** The breakdown entry of [u] for [date]: its check-ins of the day, the
    distinct clients among them, and their hours, to one decimal. *)
Definition entry (db : database) (date : string) (u : user) : Emp.t :=
  {| Emp.employee_id := u_id u;
     Emp.employee_name := u_name u;
     Emp.employee_email := u_email u;
     Emp.total_checkins := List.length (checkins_on db (u_id u) date);
     Emp.clients_visited :=
       List.length (nodup Z.eq_dec (map ch_client_id (checkins_on db (u_id u) date)));
     Emp.hours_worked :=
       inject_Z (Qfloor (10 * Qsum (map hours_of (checkins_on db (u_id u) date))
                         + (1 # 2))) / 10 |}.



(** The distance between the team total and the sum of the breakdown. *)
Definition hours_gap (ts : Team.t) (bd : list Emp.t) : Q :=
  Qabs (Team.total_hours_worked ts - Qsum (map Emp.hours_worked bd)).

End Spec.

(* ================================================================== *)
(** * Derived notions used to state the properties *)
(* ================================================================== *)

(** [users.id] is the primary key of [users]. *)
Definition users_pk (db : database) : Prop := NoDup (map u_id (users db)).

(** The users [employeeQuery] keeps: its [WHERE] clause only reads [u]. *)
Definition selected (manager : Z) (employee_id : option Z) (u : user) : bool :=
  Reports.employeeQuery_where manager employee_id (u, None).

(** The row [employeeQuery] computes for [u]: the select list on the group
    of the joined rows of [u]. *)
Definition employee_row (db : database) (date : string) (u : user) : Emp.t :=
  Reports.employeeQuery_select
    (Reports.employeeQuery_key (u, None),
     Sql.left_rows (Reports.employeeQuery_on date) (checkins db) u).

(** The data of a successful response. *)
Definition report_of (r : response) : option (string * Team.t * list Emp.t) :=
  match json r with
  | Report date team_summary employee_breakdown =>
      Some (date, team_summary, employee_breakdown)
  | Failure _ => None
  end.

(** The date a statement was executed for. *)
Definition call_date (c : sql_call) : string :=
  match c with
  | Call_employeeQuery date _ _ => date
  | Call_uniqueClients _ date => date
  end.

(** A request of [manager] for [date], with or without [employee_id]. *)
Definition summary_request (manager : Z) (date : string)
    (employee_id : option Z) : request :=
  {| req_user := {| jwt_id := manager; jwt_role := "manager" |};
     req_query := {| q_date := Some date; q_employee_id := employee_id |} |}.

(** The users of a report, in the order of the breakdown. *)
Definition listed (db : database) (manager : Z) (employee_id : option Z)
    : list user :=
  Sql.order_by u_name (filter (selected manager employee_id) (users db)).

(** The check-ins a report over the users [us] counts: for each of them, its
    check-ins on [date]. *)
Definition counted (db : database) (date : string) (us : list user)
    : list checkin :=
  flat_map (fun u => Spec.checkins_on db (u_id u) date) us.


(** The sum of a list of integers. *)
Definition Zsum (l : list Z) : Z := fold_right Z.add 0%Z l.

(* ================================================================== *)
(** * Sample data *)
(* ================================================================== *)

Module Demo.

(** Times on 15 and 14 January 2024 (Julian day 2460324.5 is
    2024-01-15 00:00:00). *)
Definition jan15 (h m s : Z) : sqltime :=
  {| DATE := "2024-01-15";
     julianday := (4920649 # 2) + Qmake (h * 3600 + m * 60 + s) 86400 |}.

Definition jan14 (h m s : Z) : sqltime :=
  {| DATE := "2024-01-14";
     julianday := (4920647 # 2) + Qmake (h * 3600 + m * 60 + s) 86400 |}.

Definition employee (id : Z) (name email : string) : user :=
  {| u_id := id; u_name := name; u_email := email;
     u_role := "employee"; u_manager_id := Some 1%Z |}.

Definition manager : user :=
  {| u_id := 1; u_name := "Manager"; u_email := "manager@unolo.com";
     u_role := "manager"; u_manager_id := None |}.

Definition rahul : user := employee 2 "Rahul Kumar" "rahul@unolo.com".
Definition priya : user := employee 3 "Priya Singh" "priya@unolo.com".
Definition amit : user := employee 4 "Amit Shah" "amit@unolo.com".
Definition neha : user := employee 5 "Neha Rao" "neha@unolo.com".

Definition visit (id employee client : Z) (arrival : sqltime)
    (checkout : option sqltime) : checkin :=
  {| ch_id := id; ch_employee_id := employee; ch_client_id := client;
     ch_checkin_time := arrival; ch_checkout_time := checkout;
     ch_status := match checkout with
                  | Some _ => "checked_out"
                  | None => "checked_in"
                  end |}.

(** Rahul visits two clients on the 15th, one visit still open; Priya
    visited one on the 14th. *)
Definition db : database :=
  {| users := [manager; rahul; priya];
     checkins :=
       [ visit 1 2 1 (jan15 9 0 0) (Some (jan15 11 30 0));
         visit 2 2 2 (jan15 12 0 0) None;
         visit 3 3 1 (jan14 10 0 0) (Some (jan14 11 0 0)) ] |}.

(** Four employees, each with one visit of 216 seconds (0.06 hours) on the
    15th. *)
Definition short_visits : database :=
  {| users := [manager; rahul; priya; amit; neha];
     checkins :=
       [ visit 1 2 1 (jan15 9 0 0) (Some (jan15 9 3 36));
         visit 2 3 2 (jan15 9 0 0) (Some (jan15 9 3 36));
         visit 3 4 3 (jan15 9 0 0) (Some (jan15 9 3 36));
         visit 4 5 4 (jan15 9 0 0) (Some (jan15 9 3 36)) ] |}.

(** [jwt.verify] of a deployment that issued one token to Rahul and one to
    the manager. *)
Definition jwt_verify (token : string) : option jwt_user :=
  if (token =? "token-of-rahul")%string
  then Some {| jwt_id := 2; jwt_role := "employee" |}
  else if (token =? "token-of-manager")%string
  then Some {| jwt_id := 1; jwt_role := "manager" |}
  else None.

End Demo.

(* ================================================================== *)
(** * The [Counter] component ([frontend/src/components/Counter.jsx]) *)
(* ================================================================== *)

Module Counter.

(** The props, with their defaults [initialValue = 0], [showDouble = true]
    filled in by the caller. *)
Record props := { initialValue : Z; showDouble : bool }.

(** A line written by [console.log]. *)
Inductive line :=
| Double_value (v : Z)       (** ['Double value:', count * 2] *)
| Count_from_ref (v : Z).    (** ['Count from ref:', countRef.current] *)

(** What the component holds between two events: the two state variables,
    the ref, the value cached by [useMemo], whether the interval of the
    second effect is installed, and the console so far. *)
Record state := {
  count : Z;
  isRunning : bool;
  countRef : Z;
  doubled : Z;
  interval : bool;
  console : list line
}.

(** What the user, or the timer, does. *)
Inductive event :=
| ClickPlus     (** the [+1] button: [setCount(c => c + 1)] *)
| ClickAuto     (** the [Auto]/[Stop] button: [setIsRunning(!isRunning)] *)
| ClickLog      (** the [Log] button: [logCount()] *)
| Tick.         (** the interval fires: [setCount(c => c + 1)] *)

(** The third effect, [useEffect(..., [count, showDouble])]. *)
Definition log_double (p : props) (count : Z) (console : list line) : list line :=
  if showDouble p then console ++ [Double_value (count * 2)] else console.

(** The first render and its effects: [useState(initialValue)],
    [useState(false)], [useRef(count)], the memo computed, the ref written,
    no interval since [isRunning] is false, the double logged. *)
Definition mount (p : props) : state :=
  {| count := initialValue p;
     isRunning := false;
     countRef := initialValue p;
     doubled := initialValue p * 2;
     interval := false;
     console := log_double p (initialValue p) [] |}.

(** [setCount(c => c + 1)], the render it causes and the effects whose
    dependencies changed: [count] changed, so the memo is recomputed, the ref
    is written and the double is logged; [isRunning] did not, so the interval
    stays. *)
Definition increment (p : props) (s : state) : state :=
  let count' := (count s + 1)%Z in
  {| count := count';
     isRunning := isRunning s;
     countRef := count';
     doubled := count' * 2;
     interval := interval s;
     console := log_double p count' (console s) |}.

(** One event, handled to the end of the effects of the render it causes. *)
Definition handle (p : props) (e : event) (s : state) : state :=
  match e with
  | ClickPlus => increment p s
  | Tick => if interval s then increment p s else s
  | ClickAuto =>
      (* [isRunning] changed: the cleanup clears the interval, and the effect
         installs a new one when the component now runs; [count] did not
         change, so the memo and the ref are left alone. *)
      {| count := count s;
         isRunning := negb (isRunning s);
         countRef := countRef s;
         doubled := doubled s;
         interval := negb (isRunning s);
         console := console s |}
  | ClickLog =>
      {| count := count s;
         isRunning := isRunning s;
         countRef := countRef s;
         doubled := doubled s;
         interval := interval s;
         console := console s ++ [Count_from_ref (countRef s)] |}
  end.

(** The component after a sequence of events. *)
Definition after (p : props) (events : list event) : state :=
  fold_left (fun s e => handle p e s) events (mount p).




End Counter.

(* ================================================================== *)
(** * Notions for the check-in requests of one employee *)
(* ================================================================== *)

(** [t] is a request of [employee], or an answered request. *)
Definition of_employee (employee : Z) (t : CheckIn.task) : Prop :=
  match t with
  | CheckIn.AwaitSelect e _ _ => e = employee
  | CheckIn.AwaitInsert e _ _ => e = employee
  | CheckIn.Done _ => True
  end.

(** [t] has been answered. *)
Definition answered (t : CheckIn.task) : Prop :=
  match t with
  | CheckIn.Done _ => True
  | _ => False
  end.

(** What every schedule keeps true of the requests of one employee who had
    [initial] open check-ins: each success stands for one more open row, and
    no request was turned down while the employee had no open row. *)
Definition consistent (employee : Z) (initial : nat) (s : CheckIn.system)
    : Prop :=
  Forall (of_employee employee) (snd s) /\
  List.length (CheckIn.activeCheckins (fst s) employee)
  = (initial + CheckIn.count_outcome CheckIn.Created s)%nat /\
  (In (CheckIn.Done CheckIn.AlreadyCheckedIn) (snd s) ->
   (1 <= List.length (CheckIn.activeCheckins (fst s) employee))%nat).

(* ================================================================== *)
(** * More sample data *)
(* ================================================================== *)

Module MoreDemo.

(** The store of [Demo.db] with two more check-ins: one by Rahul on the
    14th, one on the 15th by a user who is not in [users]. *)
Definition db_more_checkins : database :=
  {| users := users Demo.db;
     checkins :=
       Demo.visit 4 2 3 (Demo.jan14 16 0 0) (Some (Demo.jan14 17 0 0))
       :: checkins Demo.db
       ++ [Demo.visit 5 9 4 (Demo.jan15 8 0 0) None] |}.

(** The store of [Demo.db] with a second manager and an employee of hers. *)
Definition db_other_team : database :=
  {| users :=
       users Demo.db
       ++ [ {| u_id := 6; u_name := "Second Manager";
               u_email := "manager2@unolo.com"; u_role := "manager";
               u_manager_id := None |};
            {| u_id := 7; u_name := "Vikram Das";
               u_email := "vikram@unolo.com"; u_role := "employee";
               u_manager_id := Some 6%Z |} ];
     checkins := checkins Demo.db |}.

(** A request of the manager of [Demo] with her token. *)
Definition manager_request (date : string) : raw_request :=
  {| token := "token-of-manager";
     raw_query := {| q_date := Some date; q_employee_id := None |} |}.

End MoreDemo.

(* ================================================================== *)
(** * Facts about the relational operators *)
(* ================================================================== *)

Module SqlFacts.
Import Sql.

(** A [WHERE] clause applies block by block. *)
Lemma where_blockwise (L R : Type) (rows_of : L -> list R) (keep : R -> bool)
    (lefts : list L) :
  filter keep (flat_map rows_of lefts)
  = flat_map (fun a => filter keep (rows_of a)) lefts.
Proof.
  induction lefts as [|a lefts IH]; cbn [flat_map]; [reflexivity|].
  now rewrite filter_app, IH.
Qed.

Lemma filter_all (A : Type) (p : A -> bool) (l : list A) :
  (forall x, In x l -> p x = true) -> filter p l = l.
Proof.
  induction l as [|a l IH]; simpl; intros H; [reflexivity|].
  rewrite (H a) by now left.
  f_equal. apply IH. intros x Hx. apply H. now right.
Qed.

Lemma filter_none (A : Type) (p : A -> bool) (l : list A) :
  (forall x, In x l -> p x = false) -> filter p l = [].
Proof.
  induction l as [|a l IH]; simpl; intros H; [reflexivity|].
  rewrite (H a) by now left.
  apply IH. intros x Hx. apply H. now right.
Qed.

Section Blocks.
Variables A B : Type.
Variable on : A -> B -> bool.
Variable r : list B.

Lemma block_fst (a : A) (row : A * option B) : In row (left_rows on r a) -> fst row = a.
Proof.
  unfold left_rows. destruct (filter (on a) r) as [|b bs].
  - simpl. intros [<-|[]]. reflexivity.
  - intros H. apply in_map_iff in H. destruct H as [b' [<- _]]. reflexivity.
Qed.

Lemma block_nonempty (a : A) : left_rows on r a <> [].
Proof.
  unfold left_rows. destruct (filter (on a) r); discriminate.
Qed.

(** A [WHERE] clause that only reads the left row selects whole blocks. *)
Lemma where_on_left (sel : A -> bool) (l : list A) :
  filter (fun row => sel (fst row)) (left_join on l r)
  = flat_map (left_rows on r) (filter sel l).
Proof.
  unfold left_join. rewrite where_blockwise.
  induction l as [|a l IH]; simpl; [reflexivity|].
  rewrite IH. destruct (sel a) eqn:Ha; simpl.
  - f_equal. apply filter_all. intros row Hrow.
    now rewrite (block_fst _ _ Hrow).
  - rewrite filter_none; [reflexivity|]. intros row Hrow.
    now rewrite (block_fst _ _ Hrow).
Qed.
End Blocks.

Section GroupBlocks.
Variables U R K : Type.
Variable K_eq_dec : forall x y : K, {x = y} + {x <> y}.
Variable key : R -> K.
Variable rows_of : U -> list R.
Variable key_of : U -> K.
Hypothesis rows_key : forall u row, In row (rows_of u) -> key row = key_of u.
Hypothesis rows_nonempty : forall u, rows_of u <> [].

Lemma nodup_repeat_app (k : K) (n : nat) (ks : list K) :
  ~ In k ks ->
  nodup K_eq_dec (repeat k (S n) ++ ks) = k :: nodup K_eq_dec ks.
Proof.
  intros Hk. induction n as [|n IH].
  - cbn [repeat app nodup].
    destruct (in_dec K_eq_dec k ks); [contradiction|reflexivity].
  - change (repeat k (S (S n)) ++ ks) with (k :: (repeat k (S n) ++ ks)).
    cbn [nodup].
    destruct (in_dec K_eq_dec k (repeat k (S n) ++ ks)) as [_|Hn]; [exact IH|].
    exfalso. apply Hn. simpl. now left.
Qed.

Lemma keys_of_rows (u : U) :
  map key (rows_of u) = repeat (key_of u) (List.length (rows_of u)).
Proof.
  generalize (rows_key u). induction (rows_of u) as [|row rows IH]; simpl; intros H.
  - reflexivity.
  - rewrite (H row) by now left. f_equal. apply IH. intros; apply H; now right.
Qed.

Lemma key_in_flat_map (us : list U) (k : K) :
  In k (map key (flat_map rows_of us)) -> In k (map key_of us).
Proof.
  intros H. apply in_map_iff in H. destruct H as [row [<- Hrow]].
  apply in_flat_map in Hrow. destruct Hrow as [u [Hu Hrow]].
  rewrite (rows_key _ _ Hrow). now apply in_map.
Qed.

(** Grouping rows that come in blocks with pairwise distinct keys gives
    the blocks back, in order. *)
Lemma group_by_blocks (us : list U) :
  NoDup (map key_of us) ->
  group_by K_eq_dec key (flat_map rows_of us)
  = map (fun u => (key_of u, rows_of u)) us.
Proof.
  induction us as [|u us IH]; intros Hnd; [reflexivity|].
  inversion Hnd as [|k ks Hnotin Hnd' Heq]; subst.
  specialize (IH Hnd').
  assert (Hfresh : ~ In (key_of u) (map key (flat_map rows_of us))).
  { intros H. apply Hnotin. now apply key_in_flat_map. }
  unfold group_by in *. simpl flat_map.
  rewrite map_app, keys_of_rows.
  destruct (rows_of u) as [|row0 rows0] eqn:Hrows; [now destruct (rows_nonempty Hrows)|].
  rewrite <- Hrows.
  replace (List.length (rows_of u)) with (S (List.length rows0))
    by now rewrite Hrows.
  rewrite nodup_repeat_app by exact Hfresh.
  simpl map. f_equal.
  - f_equal. rewrite filter_app.
    rewrite filter_all, filter_none.
    + apply app_nil_r.
    + intros row Hrow. destruct (K_eq_dec (key row) (key_of u)) as [E|]; [|reflexivity].
      exfalso. apply Hfresh. rewrite <- E. now apply in_map.
    + intros row Hrow. rewrite (rows_key _ _ Hrow).
      destruct (K_eq_dec (key_of u) (key_of u)); [reflexivity|contradiction].
  - rewrite <- IH. apply map_ext_in. intros k Hk. f_equal.
    rewrite filter_app, filter_none; [reflexivity|].
    intros row Hrow. rewrite (rows_key _ _ Hrow).
    destruct (K_eq_dec (key_of u) k) as [E|]; [|reflexivity].
    exfalso. apply Hfresh. rewrite E. now apply nodup_In in Hk.
Qed.
End GroupBlocks.

Section OrderBy.
Variable R : Type.
Variable col : R -> string.


Lemma insert_row_perm (r : R) (l : list R) :
  Permutation (insert_row col r l) (r :: l).
Proof.
  induction l as [|r' l IH]; simpl; [reflexivity|].
  destruct (String.leb (col r) (col r')); [reflexivity|].
  rewrite IH. apply perm_swap.
Qed.

Lemma order_by_perm (l : list R) : Permutation (order_by col l) l.
Proof.
  induction l as [|r l IH]; simpl; [reflexivity|].
  rewrite insert_row_perm. now constructor.
Qed.


End OrderBy.

Lemma insert_row_map (R R' : Type) (g : R -> R') (col : R' -> string)
    (r : R) (l : list R) :
  insert_row col (g r) (map g l) = map g (insert_row (fun x => col (g x)) r l).
Proof.
  induction l as [|r' l IH]; simpl; [reflexivity|].
  destruct (String.leb (col (g r)) (col (g r'))); simpl; [reflexivity|].
  now rewrite IH.
Qed.

(** Ordering commutes with a projection of the rows. *)
Lemma order_by_map (R R' : Type) (g : R -> R') (col : R' -> string) (l : list R) :
  order_by col (map g l) = map g (order_by (fun x => col (g x)) l).
Proof.
  induction l as [|r l IH]; simpl; [reflexivity|].
  fold (order_by col (map g l)). rewrite IH. apply insert_row_map.
Qed.

End SqlFacts.

(* ================================================================== *)
(** * Rational sums *)
(* ================================================================== *)

Module QFacts.
Import Spec.

Lemma fold_left_Qplus (l : list Q) (a : Q) : fold_left Qplus l a == a + Qsum l.
Proof.
  revert a. induction l as [|x l IH]; intros a; simpl.
  - ring.
  - rewrite IH. ring.
Qed.

Lemma fold_left_sum (A : Type) (f : A -> Q) (l : list A) (a : Q) :
  fold_left (fun sum e => sum + f e) l a == a + Qsum (map f l).
Proof.
  revert a. induction l as [|x l IH]; intros a; simpl.
  - ring.
  - rewrite IH. ring.
Qed.

Lemma Qsum_app (l1 l2 : list Q) : Qsum (l1 ++ l2) == Qsum l1 + Qsum l2.
Proof.
  induction l1 as [|x l1 IH]; simpl.
  - ring.
  - rewrite IH. ring.
Qed.

Lemma Qsum_ext (A : Type) (f g : A -> Q) (l : list A) :
  (forall x, In x l -> f x == g x) -> Qsum (map f l) == Qsum (map g l).
Proof.
  induction l as [|x l IH]; simpl; intros H; [reflexivity|].
  rewrite (H x) by now left. rewrite IH; [reflexivity|].
  intros y Hy. apply H. now right.
Qed.


Lemma Math_round_comp (x y : Q) : x == y -> Math_round x = Math_round y.
Proof. intros H. unfold Math_round. now rewrite H. Qed.

Lemma round1_comp (x y : Q) : x == y -> round1 x = round1 y.
Proof.
  intros H. unfold round1. f_equal. f_equal. apply Math_round_comp. now rewrite H.
Qed.

End QFacts.

(* ================================================================== *)
(** * What [employeeQuery] returns *)
(* ================================================================== *)

Module ReportFacts.
Import Sql SqlFacts QFacts Spec Reports.

Lemma where_reads_user (manager : Z) (employee_id : option Z) (row : joined) :
  employeeQuery_where manager employee_id row
  = selected manager employee_id (fst row).
Proof. reflexivity. Qed.

(** A [WHERE] clause keeps a key a key. *)
Lemma kept_ids_distinct (keep : user -> bool) (us : list user) :
  NoDup (map u_id us) -> NoDup (map u_id (filter keep us)).
Proof.
  intros Hnd. induction us as [|u us IH]; cbn [filter]; [constructor|].
  cbn [map] in Hnd. apply NoDup_cons_iff in Hnd. destruct Hnd as [Hfresh Hnd].
  destruct (keep u); [|now apply IH].
  cbn [map]. apply NoDup_cons; [|now apply IH].
  intros Hin. apply Hfresh. apply in_map_iff in Hin.
  destruct Hin as [u' [E Hu']]. apply filter_In in Hu'.
  apply in_map_iff. exists u'. tauto.
Qed.

Lemma keys_distinct (us : list user) :
  NoDup (map u_id us) ->
  NoDup (map (fun u => employeeQuery_key (u, @None checkin)) us).
Proof.
  intros H. apply (NoDup_map_inv (fun k : group_key => fst (fst k))).
  rewrite map_map. exact H.
Qed.

(** With [users.id] a key, the query returns one row per selected user, the
    rows being those of [employee_row], ordered by name. *)
Lemma employeeQuery_rows (db : database) (date : string) (manager : Z)
    (employee_id : option Z) :
  users_pk db ->
  employeeQuery db date manager employee_id
  = map (employee_row db date)
      (order_by u_name (filter (selected manager employee_id) (users db))).
Proof.
  intros Hpk. unfold employeeQuery.
  rewrite (filter_ext (employeeQuery_where manager employee_id)
             (fun row => selected manager employee_id (fst row))
             (where_reads_user manager employee_id)).
  rewrite (where_on_left (employeeQuery_on date) (checkins db)
             (selected manager employee_id)).
  rewrite (@group_by_blocks user joined group_key group_key_eq_dec
             employeeQuery_key
             (left_rows (employeeQuery_on date) (checkins db))
             (fun u => employeeQuery_key (u, None))).
  - rewrite map_map. fold (employee_row db date).
    change (fun x : user => employeeQuery_select
              (employeeQuery_key (x, None),
               left_rows (employeeQuery_on date) (checkins db) x))
      with (employee_row db date).
    rewrite order_by_map. reflexivity.
  - intros u row Hrow. apply block_fst in Hrow.
    unfold employeeQuery_key. now rewrite Hrow.
  - intros u. apply block_nonempty.
  - apply keys_distinct. apply kept_ids_distinct. exact Hpk.
Qed.

Lemma employee_row_id db date u : Emp.employee_id (employee_row db date u) = u_id u.
Proof. reflexivity. Qed.

Lemma employee_row_name db date u :
  Emp.employee_name (employee_row db date u) = u_name u.
Proof. reflexivity. Qed.

Lemma employee_row_email db date u :
  Emp.employee_email (employee_row db date u) = u_email u.
Proof. reflexivity. Qed.

(** The partners of [u] in the join are its check-ins of the day. *)
Lemma partners_checkins_on (db : database) (date : string) (u : user) :
  filter (employeeQuery_on date u) (checkins db) = checkins_on db (u_id u) date.
Proof.
  unfold checkins_on. apply filter_ext. intros ch.
  unfold employeeQuery_on. now rewrite Z.eqb_sym.
Qed.

Lemma non_null_map_Some (A B : Type) (f : A -> B) (l : list A) :
  non_null (map (fun x => Some (f x)) l) = map f l.
Proof. induction l as [|a l IH]; simpl; [reflexivity|]. now rewrite IH. Qed.

Lemma left_rows_cases (db : database) (date : string) (u : user) :
  (checkins_on db (u_id u) date = [] /\
   left_rows (employeeQuery_on date) (checkins db) u = [(u, None)])
  \/
  (checkins_on db (u_id u) date <> [] /\
   left_rows (employeeQuery_on date) (checkins db) u
   = map (fun ch => (u, Some ch)) (checkins_on db (u_id u) date)).
Proof.
  unfold left_rows. rewrite partners_checkins_on.
  destruct (checkins_on db (u_id u) date) as [|ch chs].
  - left. split; reflexivity.
  - right. split; [discriminate|reflexivity].
Qed.

Lemma employee_row_total_checkins db date u :
  Emp.total_checkins (employee_row db date u)
  = List.length (checkins_on db (u_id u) date).
Proof.
  unfold employee_row, employeeQuery_select, employeeQuery_key. cbn [Emp.total_checkins fst].
  destruct (left_rows_cases db date u) as [[E ->]|[_ ->]].
  - rewrite E. reflexivity.
  - rewrite map_map. cbn [snd option_map]. unfold COUNT.
    rewrite non_null_map_Some. apply length_map.
Qed.

Lemma employee_row_clients_visited db date u :
  Emp.clients_visited (employee_row db date u)
  = List.length (nodup Z.eq_dec (map ch_client_id (checkins_on db (u_id u) date))).
Proof.
  unfold employee_row, employeeQuery_select, employeeQuery_key. cbn [Emp.clients_visited fst].
  destruct (left_rows_cases db date u) as [[E ->]|[_ ->]].
  - rewrite E. reflexivity.
  - rewrite map_map. cbn [snd option_map]. unfold COUNT_DISTINCT.
    now rewrite non_null_map_Some.
Qed.

Lemma hours_case_closed (u : user) (ch : checkin) :
  hours_case (u, Some ch) == hours_of ch.
Proof.
  unfold hours_case, hours_of. cbn [snd].
  destruct (ch_checkout_time ch); [ring|reflexivity].
Qed.

Lemma employee_row_hours_worked db date u :
  Emp.hours_worked (employee_row db date u)
  == Qsum (map hours_of (checkins_on db (u_id u) date)).
Proof.
  unfold employee_row, employeeQuery_select, employeeQuery_key. cbn [Emp.hours_worked fst].
  destruct (left_rows_cases db date u) as [[E ->]|[Hne ->]].
  - rewrite E. cbn. reflexivity.
  - rewrite map_map. unfold SUM. rewrite non_null_map_Some.
    destruct (checkins_on db (u_id u) date) as [|ch chs]; [contradiction|].
    cbn [map COALESCE]. rewrite fold_left_Qplus.
    change (hours_case (u, Some ch) :: map (fun x => hours_case (u, Some x)) chs)
      with (map (fun x => hours_case (u, Some x)) (ch :: chs)).
    rewrite (Qsum_ext (fun x => hours_case (u, Some x)) hours_of).
    + change (map hours_of (ch :: chs)) with (hours_of ch :: map hours_of chs). ring.
    + intros x _. apply hours_case_closed.
Qed.

End ReportFacts.

(* ================================================================== *)
(** * The date pattern *)
(* ================================================================== *)

Module DateFacts.
Import Spec.

Lemma is_digit_spec (c : ascii) : is_digit c = true <-> decimal_digit c.
Proof.
  unfold decimal_digit.
  destruct c as [[] [] [] [] [] [] [] []]; vm_compute; split; intros H;
    try discriminate; try reflexivity; try tauto;
    repeat (destruct H as [H|H]; try discriminate H); try contradiction.
Qed.

Ltac next_char s :=
  destruct s as [|? s]; cbn [digits lit and_then]; try discriminate.

Ltac digit_here :=
  match goal with
  | |- context [is_digit ?c] =>
      let E := fresh "Hd" in destruct (is_digit c) eqn:E; try discriminate
  end.

Ltac dash_here :=
  match goal with
  | |- context [Ascii.eqb ?c ?d] =>
      let E := fresh "Hc" in
      destruct (Ascii.eqb_spec c d) as [E|E]; try discriminate; try subst c
  end.

(** The pattern of the route accepts exactly the texts of shape
    [YYYY-MM-DD]. *)
Lemma dateRegex_test_spec (s : string) : dateRegex_test s = true <-> YYYY_MM_DD s.
Proof.
  split.
  - unfold dateRegex_test.
    next_char s. digit_here. next_char s. digit_here.
    next_char s. digit_here. next_char s. digit_here.
    next_char s. dash_here.
    next_char s. digit_here. next_char s. digit_here.
    next_char s. dash_here.
    next_char s. digit_here. next_char s. digit_here.
    destruct s; [|discriminate]. intros _.
    do 8 eexists. split; [|reflexivity].
    repeat (constructor; [now apply is_digit_spec|]). constructor.
  - intros (y1 & y2 & y3 & y4 & m1 & m2 & d1 & d2 & Hd & ->).
    repeat match goal with
           | H : Forall _ (_ :: _) |- _ =>
               let Hx := fresh "Hx" in
               inversion H as [|? ? Hx ?]; subst; clear H;
               apply is_digit_spec in Hx
           end.
    unfold dateRegex_test.
    repeat first
      [ progress cbn [string_of_list_ascii digits lit and_then]
      | rewrite Ascii.eqb_refl
      | match goal with
        | H : is_digit ?c = true |- context [is_digit ?c] => rewrite H
        end ].
    reflexivity.
Qed.

Lemma well_formed_nonempty (s : string) : YYYY_MM_DD s -> s <> EmptyString.
Proof. intros (? & ? & ? & ? & ? & ? & ? & ? & _ & ->). discriminate. Qed.

End DateFacts.

(* ================================================================== *)
(** * What the handler answers *)
(* ================================================================== *)

Module HandlerFacts.
Import Spec DateFacts DailySummary.

(** The handler rejects a missing or malformed date without a statement. *)
Lemma handler_rejects (pool : Pool) (req : request) :
  missing_or_malformed (q_date (req_query req)) ->
  handler pool req = (missing_date, []) \/ handler pool req = (invalid_date, []).
Proof.
  unfold missing_or_malformed, handler, try_catch, body_of.
  destruct (q_date (req_query req)) as [[|c s]|]; intros H.
  - left. reflexivity.
  - destruct H as [H|H]; [discriminate|].
    destruct (dateRegex_test (String c s)) eqn:E.
    + exfalso. apply H. now apply dateRegex_test_spec.
    + right. reflexivity.
  - left. reflexivity.
Qed.

(** On a well-formed date and a reachable store the handler runs both
    statements and answers 200 with the report computed from their rows. *)
Lemma handler_sqlite (db : database) (req : request) (date : string) :
  q_date (req_query req) = Some date ->
  YYYY_MM_DD date ->
  handler (sqlite db) req
  = ({| status := 200;
        json :=
          Report date
            (set_unique_clients_visited
               (teamSummary
                  (Reports.employeeQuery db date (jwt_id (req_user req))
                     (q_employee_id (req_query req))))
               (first_unique_clients
                  (Reports.uniqueClientsQuery db (jwt_id (req_user req)) date)))
            (employeeBreakdown
               (Reports.employeeQuery db date (jwt_id (req_user req))
                  (q_employee_id (req_query req)))) |},
     [Call_employeeQuery date (jwt_id (req_user req))
        (q_employee_id (req_query req));
      Call_uniqueClients (jwt_id (req_user req)) date]).
Proof.
  intros Hq Hwf. unfold handler, try_catch, body_of. rewrite Hq.
  pose proof (well_formed_nonempty Hwf) as Hne.
  apply dateRegex_test_spec in Hwf.
  destruct date as [|c s]; [contradiction|]. rewrite Hwf. reflexivity.
Qed.

(** Whatever the pool, a report in the response was computed from the rows of
    the two statements, for the date of the request. *)
Lemma handler_report (pool : Pool) (req : request) (resp : response)
    (log : list sql_call) (date : string) (ts : Team.t) (bd : list Emp.t) :
  handler pool req = (resp, log) ->
  report_of resp = Some (date, ts, bd) ->
  q_date (req_query req) = Some date /\
  exists employees uniqueClients,
    execute_employeeQuery pool date (jwt_id (req_user req))
      (q_employee_id (req_query req)) = Some employees /\
    execute_uniqueClients pool (jwt_id (req_user req)) date = Some uniqueClients /\
    ts = set_unique_clients_visited (teamSummary employees)
           (first_unique_clients uniqueClients) /\
    bd = employeeBreakdown employees.
Proof.
  unfold handler, try_catch, body_of, report_of.
  destruct (q_date (req_query req)) as [[|c s]|].
  - intros [= <- <-]. discriminate.
  - destruct (dateRegex_test (String c s)); cbn [negb].
    + unfold bind, await_execute, ret.
      destruct (execute_employeeQuery _ _ _ _) as [employees|] eqn:E1;
        [|intros [= <- <-]; discriminate].
      destruct (execute_uniqueClients _ _ _) as [uniqueClients|] eqn:E2;
        [|intros [= <- <-]; discriminate].
      intros [= <- <-]. cbn [json]. intros [= <- <- <-].
      split; [reflexivity|]. exists employees, uniqueClients.
      repeat split; assumption || reflexivity.
    + intros [= <- <-]. discriminate.
  - intros [= <- <-]. discriminate.
Qed.

End HandlerFacts.

(* ================================================================== *)
(** * The report of a store whose [users.id] is a key *)
(* ================================================================== *)

Module SummaryFacts.
Import Sql SqlFacts QFacts Spec Reports ReportFacts DailySummary.

Lemma listed_perm db manager employee_id :
  Permutation (listed db manager employee_id)
    (filter (selected manager employee_id) (users db)).
Proof. apply order_by_perm. Qed.

Lemma selected_in_scope (manager : Z) (employee_id : option Z) (u : user) :
  selected manager employee_id u = true <-> in_scope manager employee_id u.
Proof.
  unfold selected, employeeQuery_where, in_scope, managed_employee, manager_is.
  cbn [fst]. rewrite !andb_true_iff, String.eqb_eq.
  destruct (u_manager_id u) as [m|]; destruct employee_id as [e|];
    rewrite ?Z.eqb_eq; split; intros H; repeat split; try tauto;
    try (destruct H as [[H1 H2] H3]; congruence);
    try (destruct H as [[H1 H2] H3]; injection H1; congruence);
    try (destruct H as [[H1 H2] H3]; discriminate).
Qed.

Lemma in_listed db manager employee_id u :
  In u (listed db manager employee_id)
  <-> In u (users db) /\ in_scope manager employee_id u.
Proof.
  rewrite <- selected_in_scope, <- filter_In.
  split; apply Permutation_in;
    [apply listed_perm | apply Permutation_sym, listed_perm].
Qed.

Lemma listed_ids_distinct db manager employee_id :
  users_pk db -> NoDup (map u_id (listed db manager employee_id)).
Proof.
  intros Hpk.
  apply (Permutation_NoDup
           (l := map u_id (filter (selected manager employee_id) (users db)))).
  - apply Permutation_map, Permutation_sym, listed_perm.
  - now apply kept_ids_distinct.
Qed.

(** The row of the query for [u], once rounded, is the entry of [u]. *)
Lemma rounded_row_entry (db : database) (date : string) (u : user) :
  {| Emp.employee_id := Emp.employee_id (employee_row db date u);
     Emp.employee_name := Emp.employee_name (employee_row db date u);
     Emp.employee_email := Emp.employee_email (employee_row db date u);
     Emp.total_checkins := Emp.total_checkins (employee_row db date u);
     Emp.clients_visited := Emp.clients_visited (employee_row db date u);
     Emp.hours_worked := round1 (Emp.hours_worked (employee_row db date u)) |}
  = entry db date u.
Proof.
  unfold entry. rewrite employee_row_total_checkins, employee_row_clients_visited.
  rewrite employee_row_id, employee_row_name, employee_row_email.
  f_equal. unfold round1, Math_round. f_equal. f_equal.
  rewrite employee_row_hours_worked. apply Qfloor_comp. ring.
Qed.

Lemma breakdown_entries (db : database) (date : string) (manager : Z)
    (employee_id : option Z) :
  users_pk db ->
  employeeBreakdown (employeeQuery db date manager employee_id)
  = map (entry db date) (listed db manager employee_id).
Proof.
  intros Hpk. rewrite employeeQuery_rows by exact Hpk.
  unfold employeeBreakdown. rewrite map_map. apply map_ext.
  intros u. apply rounded_row_entry.
Qed.

Lemma fold_left_add (A : Type) (f : A -> nat) (l : list A) (a : nat) :
  fold_left (fun sum e => (sum + f e)%nat) l a = (a + list_sum (map f l))%nat.
Proof.
  revert a. induction l as [|x l IH]; intros a; simpl; [lia|].
  rewrite IH. lia.
Qed.

Lemma length_flat_map_sum (A B : Type) (f : A -> list B) (l : list A) :
  List.length (flat_map f l) = list_sum (map (fun a => List.length (f a)) l).
Proof.
  induction l as [|a l IH]; simpl; [reflexivity|].
  now rewrite length_app, IH.
Qed.

Lemma team_total_checkins (db : database) (date : string) (us : list user) :
  Team.total_checkins (teamSummary (map (employee_row db date) us))
  = List.length (counted db date us).
Proof.
  unfold teamSummary, counted. cbn [Team.total_checkins].
  rewrite fold_left_add, map_map, length_flat_map_sum. cbn [Nat.add].
  f_equal. apply map_ext. intros u. apply employee_row_total_checkins.
Qed.

Lemma Qsum_flat_map (A : Type) (f : A -> list Q) (l : list A) :
  Qsum (flat_map f l) == Qsum (map (fun a => Qsum (f a)) l).
Proof.
  induction l as [|a l IH]; simpl; [reflexivity|].
  now rewrite Qsum_app, IH.
Qed.

Lemma map_over_flat_map (A B C : Type) (g : B -> C) (f : A -> list B)
    (l : list A) :
  map g (flat_map f l) = flat_map (fun a => map g (f a)) l.
Proof.
  induction l as [|a l IH]; simpl; [reflexivity|].
  now rewrite map_app, IH.
Qed.

Lemma team_hours_sum (db : database) (date : string) (us : list user) :
  fold_left (fun sum e => sum + Emp.hours_worked e)
    (map (employee_row db date) us) 0
  == Qsum (map hours_of (counted db date us)).
Proof.
  rewrite fold_left_sum, map_map. unfold counted.
  rewrite map_over_flat_map, Qsum_flat_map, Qplus_0_l.
  apply Qsum_ext. intros u _. apply employee_row_hours_worked.
Qed.

End SummaryFacts.

(* ================================================================== *)
(** * Properties of the daily summary *)
(* ================================================================== *)

Module DailySummaryProps.
Import Sql SqlFacts QFacts Spec Reports ReportFacts DailySummary.
Import DateFacts HandlerFacts SummaryFacts.

Lemma pk_injective (l : list user) (u u' : user) :
  NoDup (map u_id l) -> In u l -> In u' l -> u_id u = u_id u' -> u = u'.
Proof.
  induction l as [|a l IH]; simpl; intros Hnd Hu Hu' E; [contradiction|].
  inversion Hnd as [|? ? Hnotin Hnd']; subst.
  destruct Hu as [->|Hu]; destruct Hu' as [->|Hu'].
  - reflexivity.
  - exfalso. apply Hnotin. rewrite E. now apply in_map.
  - exfalso. apply Hnotin. rewrite <- E. now apply in_map.
  - now apply IH.
Qed.

Lemma entry_ids (db : database) (date : string) (us : list user) :
  map Emp.employee_id (map (entry db date) us) = map u_id us.
Proof. rewrite map_map. reflexivity. Qed.







(** C9, as amended.  The breakdown and [total_employees] cover exactly the
    users whose [manager_id] is the caller, whose role is ['employee'] and,
    when the request names an [employee_id], whose id is that one: each has
    one entry, nobody else has one, and [total_employees] is their number.
    A direct report whose role is ['manager'] has no entry. *)
Theorem breakdown_scope (db : database) (req : request) (date : string) :
  users_pk db ->
  q_date (req_query req) = Some date ->
  YYYY_MM_DD date ->
  let manager := jwt_id (req_user req) in
  let employee_id := q_employee_id (req_query req) in
  exists ts bd log,
    handler (sqlite db) req
    = ({| status := 200; json := Report date ts bd |}, log) /\
    NoDup (map Emp.employee_id bd) /\
    (forall u, In u (users db) ->
       (In (u_id u) (map Emp.employee_id bd) <-> in_scope manager employee_id u)) /\
    (forall e, In e bd -> exists u, In u (users db) /\ u_id u = Emp.employee_id e) /\
    Team.total_employees ts = List.length bd /\
    (forall u, In u (users db) -> reports_to manager u ->
       u_role u = "manager"%string ->
       ~ In (u_id u) (map Emp.employee_id bd)).
Proof.
  intros Hpk Hq Hwf manager employee_id.
  do 3 eexists. split; [apply handler_sqlite; eassumption|].
  fold manager employee_id.
  rewrite breakdown_entries by exact Hpk. rewrite entry_ids.
  assert (Hiff : forall u, In u (users db) ->
            (In (u_id u) (map u_id (listed db manager employee_id))
             <-> in_scope manager employee_id u)).
  { intros u Hu. split.
    - intros Hin. apply in_map_iff in Hin. destruct Hin as [u' [E Hu']].
      apply in_listed in Hu'. destruct Hu' as [Hu' Hscope].
      now rewrite <- (pk_injective _ _ _ Hpk Hu' Hu E).
    - intros Hscope. apply in_map. apply in_listed. tauto. }
  split; [now apply listed_ids_distinct|].
  split; [exact Hiff|]. split; [|split].
  - intros e He. apply in_map_iff in He. destruct He as [u [<- Hu]].
    apply in_listed in Hu. exists u. split; [tauto|reflexivity].
  - cbn [set_unique_clients_visited Team.total_employees teamSummary].
    rewrite employeeQuery_rows by exact Hpk. rewrite !length_map. reflexivity.
  - intros u Hu _ Hrole Hin. apply Hiff in Hin; [|exact Hu].
    destruct Hin as [[_ Hemp] _]. rewrite Hrole in Hemp. discriminate.
Qed.

End DailySummaryProps.

(* ================================================================== *)
(** * Rounding *)
(* ================================================================== *)

Module RoundFacts.
Import QFacts Spec DailySummary HandlerFacts.

Lemma round_upper (x : Q) : inject_Z (Math_round x) <= x + (1 # 2).
Proof. unfold Math_round. apply Qfloor_le. Qed.

Lemma round_lower (x : Q) : x - (1 # 2) < inject_Z (Math_round x).
Proof.
  unfold Math_round.
  pose proof (Qlt_floor (x + (1 # 2))) as H.
  rewrite inject_Z_plus in H. change (inject_Z 1) with 1 in H. lra.
Qed.

Lemma half_succ (n : nat) :
  inject_Z (Z.of_nat (S n)) * (1 # 2) == inject_Z (Z.of_nat n) * (1 # 2) + (1 # 2).
Proof.
  rewrite Nat2Z.inj_succ. unfold Z.succ. rewrite inject_Z_plus.
  change (inject_Z 1) with 1. ring.
Qed.

Lemma sum_round_upper (xs : list Q) :
  inject_Z (Zsum (map Math_round xs))
  <= Qsum xs + inject_Z (Z.of_nat (List.length xs)) * (1 # 2).
Proof.
  induction xs as [|x xs IH].
  - vm_compute. discriminate.
  - cbn [map Zsum fold_right Qsum List.length]. fold (Zsum (map Math_round xs)).
    rewrite inject_Z_plus, half_succ.
    pose proof (round_upper x). lra.
Qed.

Lemma sum_round_lower (xs : list Q) :
  Qsum xs - inject_Z (Z.of_nat (List.length xs)) * (1 # 2)
  <= inject_Z (Zsum (map Math_round xs)).
Proof.
  induction xs as [|x xs IH].
  - vm_compute. discriminate.
  - cbn [map Zsum fold_right Qsum List.length]. fold (Zsum (map Math_round xs)).
    rewrite inject_Z_plus, half_succ.
    pose proof (round_lower x). lra.
Qed.

Lemma sum_round_lower_strict (xs : list Q) :
  xs <> [] ->
  Qsum xs - inject_Z (Z.of_nat (List.length xs)) * (1 # 2)
  < inject_Z (Zsum (map Math_round xs)).
Proof.
  destruct xs as [|x xs]; [contradiction|]. intros _.
  cbn [map Zsum fold_right Qsum List.length]. fold (Zsum (map Math_round xs)).
  rewrite inject_Z_plus, half_succ.
  pose proof (round_lower x). pose proof (sum_round_lower xs). lra.
Qed.

Lemma round_sum_gap_upper (xs : list Q) :
  (2 * (Math_round (Qsum xs) - Zsum (map Math_round xs))
   <= Z.of_nat (List.length xs))%Z.
Proof.
  destruct xs as [|x0 xs0]; [vm_compute; discriminate|].
  remember (x0 :: xs0) as xs eqn:E.
  assert (Hne : xs <> []) by (rewrite E; discriminate).
  clear E x0 xs0.
  pose proof (round_upper (Qsum xs)) as H1.
  pose proof (sum_round_lower_strict Hne) as H2.
  set (A := Math_round (Qsum xs)) in *.
  set (B := Zsum (map Math_round xs)) in *.
  set (n := Z.of_nat (List.length xs)) in *.
  assert (H : inject_Z (2 * (A - B)) < inject_Z (n + 1)).
  { rewrite inject_Z_mult, inject_Z_plus.
    unfold Zminus. rewrite inject_Z_plus, inject_Z_opp.
    change (inject_Z 2) with 2. change (inject_Z 1) with 1. lra. }
  rewrite <- Zlt_Qlt in H. lia.
Qed.

Lemma round_sum_gap_lower (xs : list Q) :
  (- Z.of_nat (List.length xs)
   <= 2 * (Math_round (Qsum xs) - Zsum (map Math_round xs)))%Z.
Proof.
  pose proof (round_lower (Qsum xs)) as H1.
  pose proof (sum_round_upper xs) as H2.
  set (A := Math_round (Qsum xs)) in *.
  set (B := Zsum (map Math_round xs)) in *.
  set (n := Z.of_nat (List.length xs)) in *.
  assert (H : inject_Z (- n - 1) < inject_Z (2 * (A - B))).
  { rewrite inject_Z_mult. unfold Zminus.
    rewrite !inject_Z_plus, !inject_Z_opp.
    change (inject_Z 2) with 2. change (inject_Z 1) with 1.
    lra. }
  rewrite <- Zlt_Qlt in H. lia.
Qed.

(** Rounding the sum against summing the roundings: the two integers differ
    by at most half the number of terms, rounded down. *)
Lemma round_sum_gap (xs : list Q) :
  (Z.abs (Math_round (Qsum xs) - Zsum (map Math_round xs))
   <= Z.of_nat (List.length xs) / 2)%Z.
Proof.
  pose proof (round_sum_gap_upper xs). pose proof (round_sum_gap_lower xs).
  apply Z.abs_le. Z.div_mod_to_equations. lia.
Qed.

Lemma Qsum_tenths (l : list Z) :
  Qsum (map (fun z => inject_Z z / 10) l) == inject_Z (Zsum l) / 10.
Proof.
  induction l as [|z l IH]; cbn [map Qsum Zsum fold_right].
  - reflexivity.
  - fold (Zsum l). rewrite IH, inject_Z_plus. field.
Qed.

(** The team total against the sum of the breakdown, for any rows. *)
Lemma hours_gap_bound (employees : list Emp.t) (n : nat) :
  hours_gap (set_unique_clients_visited (teamSummary employees) n)
            (employeeBreakdown employees)
  <= inject_Z (Z.of_nat (List.length employees / 2)) / 10.
Proof.
  unfold hours_gap, employeeBreakdown.
  cbn [set_unique_clients_visited teamSummary Team.total_hours_worked].
  rewrite map_map. cbn [Emp.hours_worked].
  set (xs := map (fun e => Emp.hours_worked e * 10) employees).
  assert (Htotal : round1 (fold_left (fun sum e => sum + Emp.hours_worked e)
                             employees 0)
                   = inject_Z (Math_round (Qsum xs)) / 10).
  { unfold round1. f_equal. f_equal. apply Math_round_comp.
    rewrite fold_left_sum, Qplus_0_l. subst xs.
    clear. induction employees as [|e es IH]; cbn [map Qsum]; [ring|].
    rewrite <- IH. ring. }
  assert (Hparts : Qsum (map (fun e => round1 (Emp.hours_worked e)) employees)
                   == inject_Z (Zsum (map Math_round xs)) / 10).
  { rewrite <- Qsum_tenths. subst xs. rewrite !map_map. reflexivity. }
  rewrite Htotal, Hparts.
  pose proof (round_sum_gap xs) as Hgap.
  replace (List.length xs) with (List.length employees) in Hgap
    by (subst xs; now rewrite length_map).
  set (A := Math_round (Qsum xs)) in *.
  set (B := Zsum (map Math_round xs)) in *.
  rewrite Nat2Z.inj_div. change (Z.of_nat 2) with 2%Z.
  set (k := (Z.of_nat (List.length employees) / 2)%Z) in *.
  apply Qabs_Qle_condition.
  assert (H1 : inject_Z (- k) <= inject_Z (A - B)) by (rewrite <- Zle_Qle; lia).
  assert (H2 : inject_Z (A - B) <= inject_Z k) by (rewrite <- Zle_Qle; lia).
  unfold Zminus in H1, H2. rewrite inject_Z_plus, !inject_Z_opp in *.
  clearbody A B k. unfold Qdiv. change (/ 10) with (1 # 10).
  split; lra.
Qed.

End RoundFacts.

(* ================================================================== *)
(** * The unique-clients statement *)
(* ================================================================== *)

Module UniqueClientsFacts.
Import Sql SqlFacts Spec Reports ReportFacts DailySummary.

Lemma in_inner_join (A B : Type) (on : A -> B -> bool) (l : list A)
    (r : list B) (a : A) (b : B) :
  In (a, b) (inner_join on l r) <-> In a l /\ In b r /\ on a b = true.
Proof.
  unfold inner_join. rewrite in_flat_map. split.
  - intros [a' [Ha' H]]. apply in_map_iff in H.
    destruct H as [b' [[= <- <-] Hb']]. apply filter_In in Hb'. tauto.
  - intros [Ha [Hb Hon]]. exists a. split; [exact Ha|].
    apply in_map_iff. exists b. split; [reflexivity|].
    apply filter_In. tauto.
Qed.

Lemma nodup_length_le (l : list Z) :
  (List.length (nodup Z.eq_dec l) <= List.length l)%nat.
Proof.
  apply NoDup_incl_length; [apply NoDup_nodup|].
  intros x Hx. now apply nodup_In in Hx.
Qed.

Lemma nodup_length_same (l1 l2 : list Z) :
  (forall x, In x l1 <-> In x l2) ->
  List.length (nodup Z.eq_dec l1) = List.length (nodup Z.eq_dec l2).
Proof.
  intros H. apply Nat.le_antisymm;
    (apply NoDup_incl_length; [apply NoDup_nodup|]);
    intros x Hx; apply nodup_In; apply nodup_In in Hx; now apply H.
Qed.

(** The statement counts the distinct clients of the check-ins, on the date,
    of every user whose [manager_id] is the manager. *)
Lemma unique_clients_team (db : database) (manager : Z) (date : string) :
  first_unique_clients (uniqueClientsQuery db manager date)
  = List.length
      (nodup Z.eq_dec (map ch_client_id (team_checkins_on db manager date))).
Proof.
  unfold uniqueClientsQuery, first_unique_clients.
  match goal with
  | |- (if (?n =? 0)%nat then _ else _) = _ =>
      replace (if (n =? 0)%nat then 0%nat else n) with n
        by (destruct (Nat.eqb_spec n 0); congruence)
  end.
  unfold COUNT_DISTINCT.
  rewrite (non_null_map_Some (fun r : checkin * user => ch_client_id (fst r))).
  apply nodup_length_same. intros x. rewrite !in_map_iff. split.
  - intros [[ch u] [<- H]]. apply filter_In in H. destruct H as [Hjoin Hb].
    apply in_inner_join in Hjoin. destruct Hjoin as [Hch [Hu Hon]].
    apply andb_true_iff in Hb. destruct Hb as [Hm Hdate]. cbn [fst snd] in *.
    exists ch. split; [reflexivity|].
    unfold team_checkins_on. apply filter_In. split; [exact Hch|].
    apply andb_true_iff. split; [|exact Hdate].
    apply existsb_exists. exists u. split; [exact Hu|].
    apply andb_true_iff. split; [now rewrite Z.eqb_sym|exact Hm].
  - intros [ch [<- H]]. unfold team_checkins_on in H. apply filter_In in H.
    destruct H as [Hch Hb]. apply andb_true_iff in Hb. destruct Hb as [Hex Hdate].
    apply existsb_exists in Hex. destruct Hex as [u [Hu Hb]].
    apply andb_true_iff in Hb. destruct Hb as [Hid Hm].
    exists (ch, u). split; [reflexivity|].
    apply filter_In. split.
    + apply in_inner_join. repeat split; try assumption. now rewrite Z.eqb_sym.
    + cbn [fst snd]. now rewrite Hm, Hdate.
Qed.

Lemma length_filter_cons (A U : Type) (r : U -> A -> bool) (x : A)
    (l : list A) (us : list U) :
  List.length (flat_map (fun u => filter (r u) (x :: l)) us)
  = (List.length (filter (fun u => r u x) us)
     + List.length (flat_map (fun u => filter (r u) l) us))%nat.
Proof.
  induction us as [|u us IH]; [reflexivity|].
  cbn [flat_map]. rewrite !length_app, IH. cbn [filter].
  destruct (r u x); cbn [List.length]; lia.
Qed.

(** Rows that each have a partner are no more than the pairs. *)
Lemma length_filter_le_pairs (A U : Type) (q : A -> bool) (r : U -> A -> bool)
    (l : list A) (us : list U) :
  (forall x, In x l -> q x = true -> exists u, In u us /\ r u x = true) ->
  (List.length (filter q l)
   <= List.length (flat_map (fun u => filter (r u) l) us))%nat.
Proof.
  induction l as [|x l IH]; intros H.
  - cbn. lia.
  - rewrite length_filter_cons.
    assert (IH' := IH (fun y Hy => H y (or_intror Hy))). cbn [filter].
    destruct (q x) eqn:Hq; [|lia].
    destruct (H x (or_introl eq_refl) Hq) as [u [Hu Hr]].
    assert (Hin : In u (filter (fun u => r u x) us)) by (apply filter_In; tauto).
    destruct (filter (fun u => r u x) us); [contradiction|].
    cbn [List.length]. lia.
Qed.

End UniqueClientsFacts.

Module TeamProps.
Import Sql SqlFacts QFacts Spec Reports ReportFacts DailySummary.
Import DateFacts HandlerFacts SummaryFacts RoundFacts UniqueClientsFacts.

(** C2, refuted as stated.  Rahul visited two clients on the 15th; the
    manager asks for the summary of that day restricted to Priya, who visited
    nobody: [total_checkins] is 0 and [unique_clients_visited] is 2. *)
Lemma unique_clients_exceed_total_checkins :
  exists ts bd log,
    handler (sqlite Demo.db) (summary_request 1 "2024-01-15" (Some 3%Z))
    = ({| status := 200; json := Report "2024-01-15" ts bd |}, log) /\
    (Team.total_checkins ts < Team.unique_clients_visited ts)%nat.
Proof.
  do 3 eexists. split; [vm_compute; reflexivity|]. vm_compute. lia.
Qed.

(** C2, as amended.  When every check-in made on the date by a user who
    reports to the manager was made by a user in the scope of the report (a
    managed employee and, under an employee filter, the employee named),
    [unique_clients_visited] is at most [total_checkins]. *)
Theorem unique_clients_le_total_checkins (db : database) (req : request)
    (date : string) :
  users_pk db ->
  q_date (req_query req) = Some date ->
  YYYY_MM_DD date ->
  (forall ch, In ch (team_checkins_on db (jwt_id (req_user req)) date) ->
     exists u, In u (users db) /\ u_id u = ch_employee_id ch /\
               in_scope (jwt_id (req_user req)) (q_employee_id (req_query req)) u) ->
  exists ts bd log,
    handler (sqlite db) req
    = ({| status := 200; json := Report date ts bd |}, log) /\
    (Team.unique_clients_visited ts <= Team.total_checkins ts)%nat.
Proof.
  intros Hpk Hq Hwf Hscope.
  do 3 eexists. split; [apply handler_sqlite; eassumption|].
  set (m := jwt_id (req_user req)) in *.
  set (f := q_employee_id (req_query req)) in *.
  cbn [set_unique_clients_visited Team.unique_clients_visited Team.total_checkins].
  rewrite unique_clients_team, employeeQuery_rows by exact Hpk.
  fold (listed db m f). rewrite team_total_checkins.
  etransitivity; [apply nodup_length_le|]. rewrite length_map.
  unfold team_checkins_on, counted, checkins_on.
  apply (length_filter_le_pairs
           (fun ch => existsb (fun u => (u_id u =? ch_employee_id ch)%Z
                                        && manager_is u m) (users db)
                      && (DATE (ch_checkin_time ch) =? date)%string)
           (fun u ch => (ch_employee_id ch =? u_id u)%Z
                        && (DATE (ch_checkin_time ch) =? date)%string)).
  intros ch Hch Hb.
  destruct (Hscope ch) as [u [Hu [Hid Hin]]].
  { unfold team_checkins_on. apply filter_In. tauto. }
  exists u. split; [apply in_listed; tauto|].
  apply andb_true_iff in Hb. destruct Hb as [_ Hdate].
  rewrite Hdate, Hid, Z.eqb_refl. reflexivity.
Qed.

(** C8.  [unique_clients_visited] is the number of distinct clients among
    the check-ins made on the date by the users whose [manager_id] is the
    caller, whatever their role, and a request that differs only by its
    [employee_id] gets the same value. *)
Theorem unique_clients_ignore_filter (db : database) (req : request)
    (date : string) :
  q_date (req_query req) = Some date ->
  YYYY_MM_DD date ->
  exists ts bd log,
    handler (sqlite db) req
    = ({| status := 200; json := Report date ts bd |}, log) /\
    Team.unique_clients_visited ts
    = List.length
        (nodup Z.eq_dec
           (map ch_client_id
              (team_checkins_on db (jwt_id (req_user req)) date))) /\
    forall req',
      jwt_id (req_user req') = jwt_id (req_user req) ->
      q_date (req_query req') = Some date ->
      exists ts' bd' log',
        handler (sqlite db) req'
        = ({| status := 200; json := Report date ts' bd' |}, log') /\
        Team.unique_clients_visited ts' = Team.unique_clients_visited ts.
Proof.
  intros Hq Hwf.
  do 3 eexists. split; [apply handler_sqlite; eassumption|].
  cbn [set_unique_clients_visited Team.unique_clients_visited].
  split; [apply unique_clients_team|].
  intros req' Hm Hq'.
  do 3 eexists. split; [apply handler_sqlite; eassumption|].
  cbn [set_unique_clients_visited Team.unique_clients_visited].
  now rewrite Hm.
Qed.

(** C3, refuted as stated.  Four employees each worked 0.06 hours: each
    entry is rounded up to 0.1, their sum is 0.4, and the team total, 0.24
    rounded once, is 0.2. *)
Lemma total_hours_off_by_two_tenths :
  exists ts bd log,
    handler (sqlite Demo.short_visits) (summary_request 1 "2024-01-15" None)
    = ({| status := 200; json := Report "2024-01-15" ts bd |}, log) /\
    (1 # 10) < hours_gap ts bd.
Proof.
  do 3 eexists. split; [vm_compute; reflexivity|]. vm_compute. reflexivity.
Qed.

(** C3, as amended.  In every report, the team total and the sum of the
    [hours_worked] of the [n] breakdown entries differ by at most
    [0.1 * (n / 2)], the quotient rounded down; so by at most 0.1 when the
    breakdown has at most three entries. *)
Theorem total_hours_within_tolerance (pool : Pool) (req : request)
    (resp : response) (log : list sql_call) (date : string) (ts : Team.t)
    (bd : list Emp.t) :
  handler pool req = (resp, log) ->
  report_of resp = Some (date, ts, bd) ->
  hours_gap ts bd <= inject_Z (Z.of_nat (List.length bd / 2)) / 10 /\
  ((List.length bd <= 3)%nat -> hours_gap ts bd <= 1 # 10).
Proof.
  intros Hrun Hrep.
  destruct (handler_report _ _ Hrun Hrep)
    as [_ (employees & uniqueClients & _ & _ & -> & ->)].
  pose proof (hours_gap_bound employees (first_unique_clients uniqueClients))
    as Hgap.
  assert (Hlen : List.length (employeeBreakdown employees)
                 = List.length employees)
    by (unfold employeeBreakdown; apply length_map).
  rewrite Hlen. split; [exact Hgap|].
  intros Hle. eapply Qle_trans; [exact Hgap|].
  assert (Hk : (Z.of_nat (List.length employees / 2) <= 1)%Z).
  { assert (List.length employees / 2 <= 1)%nat; [|lia].
    destruct (List.length employees) as [|[|[|[|k]]]]; cbn; lia. }
  rewrite Zle_Qle in Hk. unfold Qdiv. change (/ 10) with (1 # 10).
  change (inject_Z 1) with 1 in Hk. lra.
Qed.

End TeamProps.

(* ================================================================== *)
(** * Rejections *)
(* ================================================================== *)

Module RejectionProps.
Import Spec DailySummary DateFacts HandlerFacts.


(** The validation reads the shape of the date only: a text of the right
    shape that names no calendar day is passed on to the statements. *)
Lemma shape_only (pool : Pool) (manager : Z) :
  ~ missing_or_malformed (Some "2024-13-45"%string) /\
  snd (handler pool (summary_request manager "2024-13-45" None)) <> [].
Proof.
  split.
  - intros [H|H]; [discriminate|]. apply H. apply dateRegex_test_spec. reflexivity.
  - unfold handler, try_catch, body_of. cbn.
    unfold bind, await_execute.
    destruct (execute_employeeQuery pool _ _ _); cbn;
      [destruct (execute_uniqueClients pool _ _); cbn|]; discriminate.
Qed.

(** The statements a request makes the pool execute, and the report it gets,
    carry the date of the request. *)
Lemma date_of_request_used (pool : Pool) (req : request) :
  (forall call, In call (snd (handler pool req)) ->
     q_date (req_query req) = Some (call_date call)) /\
  (forall date ts bd, report_of (fst (handler pool req)) = Some (date, ts, bd) ->
     q_date (req_query req) = Some date).
Proof.
  unfold handler, try_catch, body_of, report_of.
  destruct (q_date (req_query req)) as [[|c s]|]; cbn;
    try (split; [intros ? []|intros ? ? ?; discriminate]).
  destruct (dateRegex_test (String c s)); cbn [negb];
    [|cbn; split; [intros ? []|intros ? ? ?; discriminate]].
  unfold bind, await_execute, ret.
  destruct (execute_employeeQuery _ _ _ _) as [employees|]; cbn.
  - destruct (execute_uniqueClients _ _ _) as [uniqueClients|]; cbn.
    + split.
      * intros call [<-|[<-|[]]]; reflexivity.
      * intros ? ? ? [= <- _ _]. reflexivity.
    + split.
      * intros call [<-|[<-|[]]]; reflexivity.
      * intros ? ? ?; discriminate.
  - split.
    + intros call [<-|[]]; reflexivity.
    + intros ? ? ?; discriminate.
Qed.

(** C7.  A caller whose token verifies to a user who is not a manager is
    answered 403, 'Manager access required', by [requireManager]; the handler
    does not run and no statement is executed. *)
Theorem non_manager_forbidden (jwt_verify : string -> option jwt_user)
    (pool : Pool) (req : raw_request) (user : jwt_user) :
  jwt_verify (token req) = Some user ->
  jwt_role user <> "manager"%string ->
  daily_summary_route jwt_verify pool req
  = ({| status := 403; json := Failure "Manager access required" |}, []).
Proof.
  intros Hverify Hrole.
  unfold daily_summary_route, authenticateToken. rewrite Hverify.
  unfold requireManager. cbn [req_user].
  destruct (String.eqb_spec (jwt_role user) "manager") as [E|_];
    [contradiction|reflexivity].
Qed.

(** A manager's request reaches the handler. *)
Lemma manager_reaches_handler (jwt_verify : string -> option jwt_user)
    (pool : Pool) (req : raw_request) (user : jwt_user) :
  jwt_verify (token req) = Some user ->
  jwt_role user = "manager"%string ->
  daily_summary_route jwt_verify pool req
  = handler pool {| req_user := user; req_query := raw_query req |}.
Proof.
  intros Hverify Hrole.
  unfold daily_summary_route, authenticateToken. rewrite Hverify.
  unfold requireManager. cbn [req_user]. rewrite Hrole. reflexivity.
Qed.

End RejectionProps.

(* ================================================================== *)
(** * The check-in race *)
(* ================================================================== *)

Module CheckInProps.
Import CheckIn.

Lemma run_app (s1 s2 : list nat) (sys : system) :
  run (s1 ++ s2) sys = run s2 (run s1 sys).
Proof.
  revert sys. induction s1 as [|i s1 IH]; intros sys; [reflexivity|].
  cbn [app run]. apply IH.
Qed.

Lemma advance_nth_at (ledger : list checkin) (pre : list task) (t : task)
    (post : list task) :
  advance_nth ledger (pre ++ t :: post) (List.length pre)
  = (fst (advance ledger t), pre ++ snd (advance ledger t) :: post).
Proof.
  induction pre as [|p pre IH]; cbn [app List.length advance_nth].
  - destruct (advance ledger t); reflexivity.
  - rewrite IH. reflexivity.
Qed.

Lemma advance_nth_after (ledger : list checkin) (x : task) (k : nat)
    (t : task) (post : list task) :
  advance_nth ledger (repeat x k ++ t :: post) k
  = (fst (advance ledger t), repeat x k ++ snd (advance ledger t) :: post).
Proof.
  pose proof (advance_nth_at ledger (repeat x k) t post) as H.
  now rewrite repeat_length in H.
Qed.

Lemma advance_nth_length (ledger : list checkin) (tasks : list task) (i : nat) :
  List.length (snd (advance_nth ledger tasks i)) = List.length tasks.
Proof.
  revert i. induction tasks as [|t tasks IH]; intros i; [reflexivity|].
  destruct i as [|i]; cbn [advance_nth].
  - destruct (advance ledger t); reflexivity.
  - specialize (IH i). destruct (advance_nth ledger tasks i). cbn in *.
    now rewrite IH.
Qed.

(** A schedule that only names requests in flight is a sequence of steps. *)
Lemma run_steps (schedule : list nat) (s : system) :
  Forall (fun i => (i < List.length (snd s))%nat) schedule ->
  steps s (run schedule s).
Proof.
  revert s. induction schedule as [|i schedule IH]; intros [ledger tasks] H.
  - apply steps_refl.
  - inversion H as [|? ? Hi Hrest]; subst. cbn [run fst snd] in *.
    apply steps_cons with (advance_nth ledger tasks i).
    + now apply step_task.
    + apply IH. rewrite advance_nth_length. exact Hrest.
Qed.

Lemma repeat_snoc (A : Type) (x : A) (n : nat) (l : list A) :
  repeat x n ++ x :: l = repeat x (S n) ++ l.
Proof.
  induction n as [|n IH]; [reflexivity|].
  cbn [repeat app] in *. now rewrite IH.
Qed.

Section OneEmployee.
Variables employee client : Z.
Variable now : sqltime.

Lemma active_after_insert (ledger : list checkin) :
  List.length (activeCheckins (insert_checkin ledger employee client now) employee)
  = S (List.length (activeCheckins ledger employee)).
Proof.
  unfold insert_checkin, activeCheckins. rewrite filter_app, length_app.
  cbn [filter ch_employee_id ch_status]. rewrite Z.eqb_refl.
  cbn. lia.
Qed.

Lemma active_after_inserts (n : nat) (ledger : list checkin) :
  List.length
    (activeCheckins (insert_checkins n ledger employee client now) employee)
  = (List.length (activeCheckins ledger employee) + n)%nat.
Proof.
  revert ledger. induction n as [|n IH]; intros ledger; cbn [insert_checkins].
  - lia.
  - rewrite IH, active_after_insert. lia.
Qed.

(** Every request reads a ledger without active check-in and goes on. *)
Lemma all_read (ledger : list checkin) (k m : nat) :
  activeCheckins ledger employee = [] ->
  run (seq k m)
      (ledger, repeat (AwaitInsert employee client now) k
               ++ repeat (AwaitSelect employee client now) m)
  = (ledger, repeat (AwaitInsert employee client now) (k + m)).
Proof.
  intros Hnone. revert k. induction m as [|m IH]; intros k.
  - cbn [seq run repeat]. now rewrite app_nil_r, Nat.add_0_r.
  - cbn [seq run repeat fst snd].
    rewrite advance_nth_after. cbn [advance]. rewrite Hnone. cbn [List.length Nat.ltb Nat.leb fst snd].
    rewrite repeat_snoc, IH. f_equal. f_equal. lia.
Qed.

(** Every request then inserts. *)
Lemma all_write (ledger : list checkin) (k m : nat) :
  run (seq k m)
      (ledger, repeat (Done Created) k
               ++ repeat (AwaitInsert employee client now) m)
  = (insert_checkins m ledger employee client now,
     repeat (Done Created) (k + m)).
Proof.
  revert ledger k. induction m as [|m IH]; intros ledger k.
  - cbn [seq run repeat insert_checkins]. now rewrite app_nil_r, Nat.add_0_r.
  - cbn [seq run repeat fst snd insert_checkins].
    rewrite advance_nth_after. cbn [advance fst snd].
    rewrite repeat_snoc, IH. f_equal. f_equal. lia.
Qed.

(** Once a check-in is active, requests served one at a time are turned
    down. *)
Lemma rest_turned_down (ledger : list checkin) (pre : list task) (m : nat) :
  activeCheckins ledger employee <> [] ->
  run (one_at_a_time_from (List.length pre) m)
      (ledger, pre ++ repeat (AwaitSelect employee client now) m)
  = (ledger, pre ++ repeat (Done AlreadyCheckedIn) m).
Proof.
  intros Hactive. revert pre. induction m as [|m IH]; intros pre.
  - reflexivity.
  - unfold one_at_a_time_from in *. cbn [seq flat_map app run repeat fst snd].
    rewrite advance_nth_at. cbn [advance].
    destruct (activeCheckins ledger employee) as [|a rest] eqn:E;
      [contradiction|].
    cbn [List.length Nat.ltb Nat.leb fst snd].
    rewrite advance_nth_at. cbn [advance fst snd].
    specialize (IH (pre ++ [Done AlreadyCheckedIn])).
    rewrite length_app in IH. cbn [List.length] in IH.
    rewrite Nat.add_1_r in IH. rewrite <- !app_assoc in IH.
    exact IH.
Qed.
End OneEmployee.

Lemma count_same_outcome (o : outcome) (ledger : list checkin) (n : nat) :
  count_outcome o (ledger, repeat (Done o) n) = n.
Proof.
  unfold count_outcome, outcomes. cbn [snd].
  induction n as [|n IH]; [reflexivity|].
  cbn [repeat map filter]. destruct o; cbn [List.length]; now rewrite IH.
Qed.

Lemma count_other_outcome (o o' : outcome) (ledger : list checkin) (n : nat) :
  o <> o' -> count_outcome o (ledger, repeat (Done o') n) = 0%nat.
Proof.
  intros Hneq. unfold count_outcome, outcomes. cbn [snd].
  induction n as [|n IH]; [reflexivity|].
  cbn [repeat map filter]. destruct o, o'; try contradiction; exact IH.
Qed.

(** C1, on the code.  Fired together against a ledger without active
    check-in of the employee, [n] check-in requests scheduled so that each
    reads before any writes all succeed, none fails with
    [AlreadyCheckedIn], and [n] open check-ins of the employee exist; the
    state is reached by steps of the system. *)
Theorem simultaneous_check_ins_all_succeed (n : nat) (ledger : list checkin)
    (employee client : Z) (now : sqltime) :
  activeCheckins ledger employee = [] ->
  let start := fire n ledger employee client now in
  let final := run (all_read_then_all_write n) start in
  steps start final /\
  count_outcome Created final = n /\
  count_outcome AlreadyCheckedIn final = 0%nat /\
  List.length (activeCheckins (fst final) employee) = n.
Proof.
  intros Hnone start final.
  assert (Hfinal : final = (insert_checkins n ledger employee client now,
                            repeat (Done Created) n)).
  { subst final start. unfold all_read_then_all_write, fire, request_for.
    rewrite run_app.
    pose proof (all_read employee client now ledger 0 n Hnone) as Hread.
    pose proof (all_write employee client now ledger 0 n) as Hwrite.
    cbn [repeat app Nat.add] in Hread, Hwrite.
    now rewrite Hread, Hwrite. }
  split; [|rewrite Hfinal; split; [|split]].
  - apply run_steps. subst start. unfold fire. cbn [snd].
    rewrite repeat_length. unfold all_read_then_all_write.
    apply Forall_app. split; apply Forall_forall; intros i Hi;
      apply in_seq in Hi; lia.
  - apply count_same_outcome.
  - apply count_other_outcome. discriminate.
  - cbn [fst]. rewrite active_after_inserts, Hnone. reflexivity.
Qed.

(** X16.  Served one at a time, the same requests behave as the specification
    asks: the first succeeds, the others fail with [AlreadyCheckedIn], and
    one check-in is open. *)
Lemma one_at_a_time_exactly_one (n : nat) (ledger : list checkin)
    (employee client : Z) (now : sqltime) :
  activeCheckins ledger employee = [] ->
  let final := run (one_at_a_time (S n)) (fire (S n) ledger employee client now) in
  count_outcome Created final = 1%nat /\
  count_outcome AlreadyCheckedIn final = n /\
  List.length (activeCheckins (fst final) employee) = 1%nat.
Proof.
  intros Hnone final. subst final.
  unfold one_at_a_time, one_at_a_time_from, fire, request_for.
  cbn [seq flat_map app run repeat fst snd advance_nth advance].
  rewrite Hnone. cbn [List.length Nat.ltb Nat.leb advance_nth advance fst snd].
  pose proof (rest_turned_down employee client now
                (insert_checkin ledger employee client now)
                [Done Created] n) as H.
  unfold one_at_a_time_from in H. cbn [List.length app] in H.
  rewrite H.
  - cbn [fst app]. split; [|split].
    + unfold count_outcome, outcomes. cbn [snd map filter List.length].
      f_equal.
      apply (@count_other_outcome Created AlreadyCheckedIn ledger n).
      discriminate.
    + unfold count_outcome, outcomes. cbn [snd map filter].
      apply (@count_same_outcome AlreadyCheckedIn ledger n).
    + now rewrite active_after_insert, Hnone.
  - intros E. pose proof (active_after_insert employee client now ledger) as Hlen.
    rewrite E in Hlen. discriminate.
Qed.

End CheckInProps.

(* ================================================================== *)
(** * Independence of the storage order *)
(* ================================================================== *)

Module StorageOrder.
Import Sql SqlFacts QFacts Spec Reports ReportFacts DailySummary.
Import DateFacts HandlerFacts SummaryFacts UniqueClientsFacts.




Section SortedUnique.
Variable R : Type.
Variable col : R -> string.





End SortedUnique.

Section Permuted.
Variables db db' : database.
Hypothesis same_users : Permutation (users db) (users db').
Hypothesis same_checkins : Permutation (checkins db) (checkins db').




End Permuted.



End StorageOrder.

Module OrderingProps.
Import Sql SqlFacts Spec Reports DailySummary.
Import DateFacts HandlerFacts DailySummaryProps StorageOrder.


End OrderingProps.

(* ================================================================== *)
(** * The properties on the sample data *)
(* ================================================================== *)

Module Instances.
Import Spec DailySummary DateFacts.
Import DailySummaryProps OrderingProps TeamProps RejectionProps CheckInProps.
Local Open Scope string_scope.

Ltac distinct_ids :=
  unfold users_pk; cbn;
  repeat (constructor; [cbn; intuition discriminate|]); constructor.

Ltac well_formed := apply dateRegex_test_spec; reflexivity.

(** C9, refuted as stated.  Asked for the 15th restricted to Priya, the
    report lists one employee; Rahul, a managed employee, has no entry. *)
Lemma breakdown_omits_managed_employee :
  exists ts bd log,
    handler (sqlite Demo.db) (summary_request 1 "2024-01-15" (Some 3%Z))
    = ({| status := 200; json := Report "2024-01-15" ts bd |}, log) /\
    In Demo.rahul (users Demo.db) /\
    managed_employee 1 Demo.rahul /\
    ~ In (u_id Demo.rahul) (map Emp.employee_id bd) /\
    Team.total_employees ts = 1%nat.
Proof.
  do 3 eexists. split; [vm_compute; reflexivity|].
  split; [cbn; tauto|]. split; [split; reflexivity|].
  split; [|reflexivity]. cbn. intros [H|[]]. discriminate.
Qed.



Lemma breakdown_scope_witness :
  exists ts bd log,
    handler (sqlite Demo.db) (summary_request 1 "2024-01-15" (Some 3%Z))
    = ({| status := 200; json := Report "2024-01-15" ts bd |}, log) /\
    NoDup (map Emp.employee_id bd) /\
    (forall u, In u (users Demo.db) ->
       (In (u_id u) (map Emp.employee_id bd) <-> in_scope 1 (Some 3%Z) u)) /\
    (forall e, In e bd ->
       exists u, In u (users Demo.db) /\ u_id u = Emp.employee_id e) /\
    Team.total_employees ts = List.length bd /\
    (forall u, In u (users Demo.db) -> reports_to 1 u ->
       u_role u = "manager"%string ->
       ~ In (u_id u) (map Emp.employee_id bd)).
Proof.
  apply (@breakdown_scope Demo.db (summary_request 1 "2024-01-15" (Some 3%Z))
           "2024-01-15").
  - distinct_ids.
  - reflexivity.
  - well_formed.
Defined.


Lemma unique_clients_le_total_checkins_witness :
  exists ts bd log,
    handler (sqlite Demo.db) (summary_request 1 "2024-01-15" None)
    = ({| status := 200; json := Report "2024-01-15" ts bd |}, log) /\
    (Team.unique_clients_visited ts <= Team.total_checkins ts)%nat.
Proof.
  apply (@unique_clients_le_total_checkins Demo.db
           (summary_request 1 "2024-01-15" None) "2024-01-15").
  - distinct_ids.
  - reflexivity.
  - well_formed.
  - intros ch Hch. exists Demo.rahul.
    cbn in Hch. destruct Hch as [<-|[<-|[]]];
      (split; [cbn; tauto|]); (split; [reflexivity|]);
      repeat split; reflexivity.
Defined.

Lemma unique_clients_ignore_filter_witness :
  exists ts bd log,
    handler (sqlite Demo.db) (summary_request 1 "2024-01-15" (Some 3%Z))
    = ({| status := 200; json := Report "2024-01-15" ts bd |}, log) /\
    Team.unique_clients_visited ts
    = List.length
        (nodup Z.eq_dec
           (map ch_client_id (team_checkins_on Demo.db 1 "2024-01-15"))) /\
    forall req',
      jwt_id (req_user req') = 1%Z ->
      q_date (req_query req') = Some "2024-01-15"%string ->
      exists ts' bd' log',
        handler (sqlite Demo.db) req'
        = ({| status := 200; json := Report "2024-01-15" ts' bd' |}, log') /\
        Team.unique_clients_visited ts' = Team.unique_clients_visited ts.
Proof.
  apply (@unique_clients_ignore_filter Demo.db
           (summary_request 1 "2024-01-15" (Some 3%Z)) "2024-01-15").
  - reflexivity.
  - well_formed.
Defined.

Lemma total_hours_within_tolerance_witness :
  exists ts bd,
    report_of (fst (handler (sqlite Demo.short_visits)
                      (summary_request 1 "2024-01-15" None)))
    = Some ("2024-01-15"%string, ts, bd) /\
    hours_gap ts bd <= inject_Z (Z.of_nat (List.length bd / 2)) / 10 /\
    ((List.length bd <= 3)%nat -> hours_gap ts bd <= 1 # 10).
Proof.
  do 2 eexists. split; [vm_compute; reflexivity|].
  eapply (@total_hours_within_tolerance (sqlite Demo.short_visits)
            (summary_request 1 "2024-01-15" None)).
  - apply surjective_pairing.
  - vm_compute. reflexivity.
Defined.


Lemma non_manager_forbidden_witness :
  daily_summary_route Demo.jwt_verify (sqlite Demo.db)
    {| token := "token-of-rahul";
       raw_query := {| q_date := Some "2024-01-15"%string;
                       q_employee_id := None |} |}
  = ({| status := 403; json := Failure "Manager access required" |}, []).
Proof.
  apply (@non_manager_forbidden Demo.jwt_verify (sqlite Demo.db) _
           {| jwt_id := 2; jwt_role := "employee" |}).
  - reflexivity.
  - discriminate.
Defined.

Lemma simultaneous_check_ins_all_succeed_witness :
  let start := CheckIn.fire 2 [] 2 1 (Demo.jan15 9 0 0) in
  let final := CheckIn.run (CheckIn.all_read_then_all_write 2) start in
  CheckIn.steps start final /\
  CheckIn.count_outcome CheckIn.Created final = 2%nat /\
  CheckIn.count_outcome CheckIn.AlreadyCheckedIn final = 0%nat /\
  List.length (CheckIn.activeCheckins (fst final) 2) = 2%nat.
Proof.
  apply (@simultaneous_check_ins_all_succeed 2 [] 2 1 (Demo.jan15 9 0 0)).
  reflexivity.
Defined.

End Instances.

(* ================================================================== *)
(** * Further properties of the daily summary handler *)
(* ================================================================== *)

Module HandlerProps.
Import Sql SqlFacts QFacts Spec Reports ReportFacts DailySummary.
Import DateFacts HandlerFacts SummaryFacts.

(** The statements of a request that passed validation: the second one is
    sent only once the first has returned. *)
Lemma handler_on_date (pool : Pool) (req : request) (date : string) :
  q_date (req_query req) = Some date ->
  YYYY_MM_DD date ->
  let m := jwt_id (req_user req) in
  let f := q_employee_id (req_query req) in
  handler pool req
  = match execute_employeeQuery pool date m f with
    | None => (failed, [Call_employeeQuery date m f])
    | Some employees =>
        match execute_uniqueClients pool m date with
        | None => (failed, [Call_employeeQuery date m f; Call_uniqueClients m date])
        | Some uniqueClients =>
            ({| status := 200;
                json := Report date
                          (set_unique_clients_visited (teamSummary employees)
                             (first_unique_clients uniqueClients))
                          (employeeBreakdown employees) |},
             [Call_employeeQuery date m f; Call_uniqueClients m date])
        end
    end.
Proof.
  intros Hq Hwf m f. unfold handler, try_catch, body_of. rewrite Hq.
  pose proof (well_formed_nonempty Hwf) as Hne.
  apply dateRegex_test_spec in Hwf.
  destruct date as [|c s]; [contradiction|]. rewrite Hwf. cbn [negb].
  unfold bind, await_execute, ret. fold m f.
  destruct (execute_employeeQuery pool (String c s) m f); [|reflexivity].
  destruct (execute_uniqueClients pool m (String c s)); reflexivity.
Qed.

Lemma malformed_or_dated (req : request) :
  missing_or_malformed (q_date (req_query req)) \/
  exists date, q_date (req_query req) = Some date /\ YYYY_MM_DD date.
Proof.
  unfold missing_or_malformed.
  destruct (q_date (req_query req)) as [d|]; [|left; exact I].
  destruct (dateRegex_test d) eqn:E.
  - right. exists d. split; [reflexivity|]. now apply dateRegex_test_spec.
  - left. right. intros H. apply dateRegex_test_spec in H. congruence.
Qed.

Lemma dated_not_malformed (req : request) (date : string) :
  q_date (req_query req) = Some date -> YYYY_MM_DD date ->
  ~ missing_or_malformed (q_date (req_query req)).
Proof.
  intros Hq Hwf H. rewrite Hq in H. destruct H as [->|H]; [|contradiction].
  now apply (well_formed_nonempty Hwf).
Qed.


(** X2.  Whatever the number of employees, a request makes the pool execute
    at most two statements: none when the date is rejected, otherwise the
    employee query for the caller, the date and the filter of the request,
    followed, only if that one returned, by the unique-clients query. *)
Theorem statements_executed (pool : Pool) (req : request) :
  let log := snd (handler pool req) in
  let m := jwt_id (req_user req) in
  let f := q_employee_id (req_query req) in
  (List.length log <= 2)%nat /\
  (log = [] <-> missing_or_malformed (q_date (req_query req))) /\
  (forall date, q_date (req_query req) = Some date -> YYYY_MM_DD date ->
     log = Call_employeeQuery date m f
           :: match execute_employeeQuery pool date m f with
              | Some _ => [Call_uniqueClients m date]
              | None => []
              end).
Proof.
  intros log m f. subst log.
  destruct (malformed_or_dated req) as [Hbad|[date [Hq Hwf]]].
  - assert (Hlog : snd (handler pool req) = []).
    { destruct (handler_rejects pool req Hbad) as [-> | ->]; reflexivity. }
    rewrite Hlog. split; [cbn; lia|]. split; [tauto|].
    intros d Hq Hwf. exfalso. now apply (dated_not_malformed req Hq Hwf).
  - pose proof (dated_not_malformed req Hq Hwf) as Hok.
    rewrite (handler_on_date pool req Hq Hwf). fold m f.
    assert (Hshape : forall d, q_date (req_query req) = Some d -> d = date)
      by (intros d Hd; congruence).
    destruct (execute_employeeQuery pool date m f) as [employees|] eqn:E1;
      [destruct (execute_uniqueClients pool m date) as [uniqueClients|]|];
      cbn [snd List.length];
      (split; [lia|]); (split; [split; [discriminate|tauto]|]);
      intros d Hd _; rewrite (Hshape d Hd), E1; reflexivity.
Qed.

Lemma checked_in_le_checkins (employees : list Emp.t) :
  (List.length (filter (fun e => (0 <? Emp.total_checkins e)%nat) employees)
   <= list_sum (map Emp.total_checkins employees))%nat.
Proof.
  induction employees as [|e es IH]; [reflexivity|].
  cbn [filter map list_sum fold_right]. unfold list_sum in IH.
  destruct (Nat.ltb_spec 0 (Emp.total_checkins e)); cbn [List.length]; lia.
Qed.

Lemma breakdown_keeps_counts (employees : list Emp.t) :
  map Emp.total_checkins (employeeBreakdown employees)
  = map Emp.total_checkins employees.
Proof. unfold employeeBreakdown. rewrite map_map. reflexivity. Qed.

Lemma filter_map_pred (A B : Type) (g : A -> B) (p : B -> bool) (l : list A) :
  List.length (filter p (map g l)) = List.length (filter (fun a => p (g a)) l).
Proof.
  induction l as [|a l IH]; [reflexivity|]. cbn [map filter].
  destruct (p (g a)); cbn [List.length]; now rewrite IH.
Qed.

(** X3.  In every report the team figures are those of the breakdown:
    [total_employees] is the number of entries, [total_checkins] the sum of
    their [total_checkins], [employees_checked_in] the number of entries
    with at least one check-in, which exceeds neither of the other two. *)
Theorem team_totals_from_breakdown (pool : Pool) (req : request)
    (resp : response) (log : list sql_call) (date : string) (ts : Team.t)
    (bd : list Emp.t) :
  handler pool req = (resp, log) ->
  report_of resp = Some (date, ts, bd) ->
  Team.total_employees ts = List.length bd /\
  Team.total_checkins ts = list_sum (map Emp.total_checkins bd) /\
  Team.employees_checked_in ts
  = List.length (filter (fun e => (0 <? Emp.total_checkins e)%nat) bd) /\
  (Team.employees_checked_in ts <= Team.total_employees ts)%nat /\
  (Team.employees_checked_in ts <= Team.total_checkins ts)%nat.
Proof.
  intros Hrun Hrep.
  destruct (handler_report _ _ Hrun Hrep)
    as [_ (employees & uniqueClients & _ & _ & -> & ->)].
  cbn [set_unique_clients_visited teamSummary Team.total_employees
         Team.total_checkins Team.employees_checked_in].
  rewrite breakdown_keeps_counts, fold_left_add. cbn [Nat.add].
  unfold employeeBreakdown at 1 2. rewrite length_map, filter_map_pred.
  cbn [Emp.total_checkins].
  repeat split.
  - apply filter_length_le.
  - apply checked_in_le_checkins.
Qed.

End HandlerProps.

(* ================================================================== *)
(** * Further properties of the rows of the report *)
(* ================================================================== *)

Module RowProps.
Import Sql SqlFacts QFacts Spec Reports ReportFacts DailySummary.
Import DateFacts HandlerFacts SummaryFacts UniqueClientsFacts.

Lemma in_left_join_some (A B : Type) (on : A -> B -> bool) (l : list A)
    (r : list B) (a : A) (b : B) :
  In (a, Some b) (left_join on l r) -> In a l /\ In b r /\ on a b = true.
Proof.
  unfold left_join. rewrite in_flat_map. intros [a' [Ha' H]].
  unfold left_rows in H. destruct (filter (on a') r) as [|b0 bs] eqn:E.
  - destruct H as [H|[]]. discriminate.
  - rewrite <- E in H. apply in_map_iff in H. destruct H as [b' [[= <- <-] Hb']].
    apply filter_In in Hb'. tauto.
Qed.

(** Every row of the query is the select list on a non-empty group of joined
    rows that passed the [WHERE] clause. *)
Lemma employeeQuery_row_origin (db : database) (date : string) (manager : Z)
    (employee_id : option Z) (e : Emp.t) :
  In e (employeeQuery db date manager employee_id) ->
  exists k rows,
    e = employeeQuery_select (k, rows) /\
    rows <> [] /\
    forall row, In row rows ->
      In row (left_join (employeeQuery_on date) (users db) (checkins db)) /\
      employeeQuery_where manager employee_id row = true.
Proof.
  unfold employeeQuery. intros He.
  apply (Permutation_in _ (order_by_perm Emp.employee_name _)) in He.
  apply in_map_iff in He. destruct He as [[k rows] [<- Hg]].
  unfold group_by in Hg. apply in_map_iff in Hg.
  destruct Hg as [k' [Heq Hk]].
  pose proof (f_equal fst Heq) as Hfst. pose proof (f_equal snd Heq) as Hsnd.
  cbn [fst snd] in Hfst, Hsnd. clear Heq. subst k rows.
  set (kept := filter (employeeQuery_where manager employee_id)
                 (left_join (employeeQuery_on date) (users db) (checkins db)))
    in *.
  set (same_key := fun r : joined =>
                     if group_key_eq_dec (employeeQuery_key r) k'
                     then true else false).
  exists k', (filter same_key kept). split; [reflexivity|]. split.
  - apply nodup_In in Hk. apply in_map_iff in Hk. destruct Hk as [row [Hkey Hrow]].
    intros E.
    assert (Hin : In row (filter same_key kept)).
    { apply filter_In. split; [exact Hrow|]. unfold same_key.
      destruct (group_key_eq_dec (employeeQuery_key row) k');
        [reflexivity|contradiction]. }
    rewrite E in Hin. contradiction.
  - intros row Hrow. apply filter_In in Hrow. destruct Hrow as [Hrow _].
    apply filter_In in Hrow. exact Hrow.
Qed.

Lemma non_null_same_length (R A B : Type) (pick : R -> option checkin)
    (f : checkin -> A) (g : checkin -> B) (rows : list R) :
  List.length (non_null (map (fun r => option_map f (pick r)) rows))
  = List.length (non_null (map (fun r => option_map g (pick r)) rows)).
Proof.
  induction rows as [|r rows IH]; [reflexivity|]. cbn [map].
  destruct (pick r); cbn [option_map non_null List.length]; now rewrite IH.
Qed.

Lemma nodup_empty_iff (l : list Z) : nodup Z.eq_dec l = [] <-> l = [].
Proof.
  split; [|intros ->; reflexivity].
  destruct l as [|x l]; [reflexivity|]. intros E.
  assert (H : In x (nodup Z.eq_dec (x :: l))) by (apply nodup_In; now left).
  rewrite E in H. contradiction.
Qed.

Lemma select_clients_bounds (g : group_key * list joined) :
  (Emp.clients_visited (employeeQuery_select g)
   <= Emp.total_checkins (employeeQuery_select g))%nat /\
  (Emp.clients_visited (employeeQuery_select g) = 0%nat
   <-> Emp.total_checkins (employeeQuery_select g) = 0%nat).
Proof.
  destruct g as [[[id name] email] rows].
  cbn [employeeQuery_select Emp.clients_visited Emp.total_checkins].
  unfold COUNT, COUNT_DISTINCT.
  rewrite (non_null_same_length (fun r : joined => snd r) ch_id ch_client_id).
  set (clients := non_null (map (fun r : joined => option_map ch_client_id (snd r)) rows)).
  split; [apply nodup_length_le|].
  rewrite !length_zero_iff_nil. apply nodup_empty_iff.
Qed.

Lemma select_idle_hours (g : group_key * list joined) :
  Emp.total_checkins (employeeQuery_select g) = 0%nat ->
  Emp.hours_worked (employeeQuery_select g) == 0.
Proof.
  destruct g as [[[id name] email] rows].
  cbn [employeeQuery_select Emp.hours_worked Emp.total_checkins].
  unfold COUNT, SUM. rewrite (non_null_map_Some hours_case).
  intros Hnone.
  assert (Hzero : Qsum (map hours_case rows) == 0).
  { induction rows as [|[u och] rows IH]; [reflexivity|].
    cbn [map option_map snd non_null List.length] in Hnone.
    destruct och as [ch|]; [discriminate|].
    cbn [map Qsum]. unfold hours_case at 1. cbn [snd].
    rewrite (IH Hnone). reflexivity. }
  destruct (map hours_case rows) as [|h hs] eqn:E; [reflexivity|].
  cbn [COALESCE]. rewrite fold_left_Qplus, Hzero. reflexivity.
Qed.

(** X4.  Every entry of the breakdown counts at most as many distinct
    clients as check-ins, no client exactly when it has no check-in, and no
    hours when it has no check-in. *)
Theorem clients_visited_bounds (db : database) (req : request) (date : string) :
  q_date (req_query req) = Some date ->
  YYYY_MM_DD date ->
  exists ts bd log,
    handler (sqlite db) req
    = ({| status := 200; json := Report date ts bd |}, log) /\
    Forall (fun e =>
              (Emp.clients_visited e <= Emp.total_checkins e)%nat /\
              (Emp.clients_visited e = 0%nat <-> Emp.total_checkins e = 0%nat) /\
              (Emp.total_checkins e = 0%nat -> Emp.hours_worked e == 0))
           bd.
Proof.
  intros Hq Hwf.
  do 3 eexists. split; [apply handler_sqlite; eassumption|].
  unfold employeeBreakdown. apply Forall_forall. intros e He.
  apply in_map_iff in He. destruct He as [row [<- Hrow]].
  cbn [Emp.clients_visited Emp.total_checkins Emp.hours_worked].
  apply employeeQuery_row_origin in Hrow.
  destruct Hrow as (k & rows & -> & _).
  destruct (select_clients_bounds (k, rows)) as [Hle Hiff].
  repeat split; try assumption; try apply Hiff.
  intros Hidle. rewrite (round1_comp (y := 0)); [reflexivity|].
  now apply select_idle_hours.
Qed.

(** X22.  [unique_clients_visited] is at most the number of check-ins made
    on the date by the users who report to the caller, and it is zero
    exactly when there is no such check-in. *)
Theorem unique_clients_bounds (db : database) (req : request) (date : string) :
  q_date (req_query req) = Some date ->
  YYYY_MM_DD date ->
  exists ts bd log,
    handler (sqlite db) req
    = ({| status := 200; json := Report date ts bd |}, log) /\
    (Team.unique_clients_visited ts
     <= List.length (team_checkins_on db (jwt_id (req_user req)) date))%nat /\
    (Team.unique_clients_visited ts = 0%nat
     <-> team_checkins_on db (jwt_id (req_user req)) date = []).
Proof.
  intros Hq Hwf.
  do 3 eexists. split; [apply handler_sqlite; eassumption|].
  cbn [set_unique_clients_visited Team.unique_clients_visited].
  rewrite unique_clients_team. split.
  - etransitivity; [apply nodup_length_le|]. now rewrite length_map.
  - rewrite length_zero_iff_nil, nodup_empty_iff. split.
    + apply map_eq_nil.
    + intros ->. reflexivity.
Qed.

Lemma round1_nonneg (x : Q) : 0 <= x -> 0 <= round1 x.
Proof.
  intros Hx. unfold round1, Math_round.
  assert (H : (0 <= Qfloor (x * 10 + (1 # 2)))%Z).
  { change 0%Z with (Qfloor 0). apply Qfloor_resp_le. lra. }
  rewrite Zle_Qle in H. unfold Qdiv. change (/ 10) with (1 # 10).
  change (inject_Z 0) with 0 in H. lra.
Qed.

Lemma Qsum_nonneg (l : list Q) : Forall (fun x => 0 <= x) l -> 0 <= Qsum l.
Proof.
  induction 1 as [|x l Hx _ IH]; cbn [Qsum]; lra.
Qed.

(** X5.  When no check-in of the day was closed before it was opened, no
    [hours_worked] of the breakdown and no [total_hours_worked] is
    negative. *)
Theorem hours_never_negative (db : database) (req : request) (date : string) :
  q_date (req_query req) = Some date ->
  YYYY_MM_DD date ->
  (forall ch out, In ch (checkins db) ->
                  DATE (ch_checkin_time ch) = date ->
                  ch_checkout_time ch = Some out ->
                  julianday (ch_checkin_time ch) <= julianday out) ->
  exists ts bd log,
    handler (sqlite db) req
    = ({| status := 200; json := Report date ts bd |}, log) /\
    Forall (fun e => 0 <= Emp.hours_worked e) bd /\
    0 <= Team.total_hours_worked ts.
Proof.
  intros Hq Hwf Hclosed.
  do 3 eexists. split; [apply handler_sqlite; eassumption|].
  set (m := jwt_id (req_user req)). set (f := q_employee_id (req_query req)).
  assert (Hrows : Forall (fun e => 0 <= Emp.hours_worked e)
                         (employeeQuery db date m f)).
  { apply Forall_forall. intros e He. apply employeeQuery_row_origin in He.
    destruct He as ([[id name] email] & rows & -> & _ & Hrows).
    cbn [employeeQuery_select Emp.hours_worked].
    unfold SUM. rewrite (non_null_map_Some hours_case).
    destruct (map hours_case rows) as [|h hs] eqn:E; [cbn; lra|].
    cbn [COALESCE]. rewrite <- E. rewrite fold_left_Qplus.
    assert (0 <= Qsum (map hours_case rows)); [|lra].
    apply Qsum_nonneg. apply Forall_forall. intros x Hx.
    apply in_map_iff in Hx. destruct Hx as [[u och] [<- Hrow]].
    destruct (Hrows _ Hrow) as [Hjoin _].
    unfold hours_case. cbn [snd].
    destruct och as [ch|]; [|lra].
    destruct (ch_checkout_time ch) as [out|] eqn:Hout; [|lra].
    apply in_left_join_some in Hjoin. destruct Hjoin as (_ & Hch & Hon).
    unfold employeeQuery_on in Hon. apply andb_true_iff in Hon.
    destruct Hon as [_ Hdate]. apply String.eqb_eq in Hdate.
    pose proof (Hclosed ch out Hch Hdate Hout). lra. }
  split.
  - unfold employeeBreakdown. apply Forall_forall. intros e He.
    apply in_map_iff in He. destruct He as [row [<- Hrow]].
    cbn [Emp.hours_worked]. apply round1_nonneg.
    rewrite Forall_forall in Hrows. now apply Hrows.
  - cbn [set_unique_clients_visited teamSummary Team.total_hours_worked].
    apply round1_nonneg. rewrite fold_left_sum.
    assert (0 <= Qsum (map Emp.hours_worked (employeeQuery db date m f))); [|lra].
    apply Qsum_nonneg. apply Forall_forall. intros x Hx.
    apply in_map_iff in Hx. destruct Hx as [e [<- He]].
    rewrite Forall_forall in Hrows. now apply Hrows.
Qed.

(** X6.  No entry of the breakdown counts more distinct clients than
    [unique_clients_visited], whatever the employee filter. *)
Theorem entry_clients_le_unique_clients (db : database) (req : request)
    (date : string) :
  users_pk db ->
  q_date (req_query req) = Some date ->
  YYYY_MM_DD date ->
  exists ts bd log,
    handler (sqlite db) req
    = ({| status := 200; json := Report date ts bd |}, log) /\
    Forall (fun e => (Emp.clients_visited e <= Team.unique_clients_visited ts)%nat)
           bd.
Proof.
  intros Hpk Hq Hwf.
  do 3 eexists. split; [apply handler_sqlite; eassumption|].
  set (m := jwt_id (req_user req)). set (f := q_employee_id (req_query req)).
  cbn [set_unique_clients_visited Team.unique_clients_visited].
  rewrite unique_clients_team, breakdown_entries by exact Hpk.
  apply Forall_forall. intros e He. apply in_map_iff in He.
  destruct He as [u [<- Hu]]. cbn [entry Emp.clients_visited].
  apply in_listed in Hu. destruct Hu as [Hu [[Hm _] _]].
  apply NoDup_incl_length; [apply NoDup_nodup|].
  intros x Hx. apply nodup_In. apply nodup_In in Hx.
  apply in_map_iff in Hx. destruct Hx as [ch [<- Hch]].
  apply in_map. unfold checkins_on in Hch. apply filter_In in Hch.
  destruct Hch as [Hin Hb]. apply andb_true_iff in Hb. destruct Hb as [Hid Hdate].
  unfold team_checkins_on. apply filter_In. split; [exact Hin|].
  rewrite Hdate, andb_true_r. apply existsb_exists. exists u.
  split; [exact Hu|]. rewrite Z.eqb_sym, Hid. unfold manager_is.
  rewrite Hm. apply Z.eqb_refl.
Qed.

Lemma tenth_close (x : Q) :
  Qabs (inject_Z (Qfloor (10 * x + (1 # 2))) / 10 - x) <= 1 # 20.
Proof.
  pose proof (Qfloor_le (10 * x + (1 # 2))) as Hle.
  pose proof (Qlt_floor (10 * x + (1 # 2))) as Hlt.
  rewrite inject_Z_plus in Hlt. change (inject_Z 1) with 1 in Hlt.
  set (z := inject_Z (Qfloor (10 * x + (1 # 2)))) in *. clearbody z.
  apply Qabs_Qle_condition. unfold Qdiv. change (/ 10) with (1 # 10).
  split; lra.
Qed.

(** X7.  Every [hours_worked] of the breakdown is within 0.05 hours of the
    exact hours of that employee's check-ins of the day, and
    [total_hours_worked] within 0.05 hours of the exact hours of all the
    check-ins counted. *)
Theorem hours_within_three_minutes (db : database) (req : request)
    (date : string) :
  users_pk db ->
  q_date (req_query req) = Some date ->
  YYYY_MM_DD date ->
  let us := listed db (jwt_id (req_user req)) (q_employee_id (req_query req)) in
  exists ts bd log,
    handler (sqlite db) req
    = ({| status := 200; json := Report date ts bd |}, log) /\
    Forall2 (fun e u =>
               Emp.employee_id e = u_id u /\
               Qabs (Emp.hours_worked e
                     - Qsum (map hours_of (checkins_on db (u_id u) date)))
               <= 1 # 20)
            bd us /\
    Qabs (Team.total_hours_worked ts
          - Qsum (map hours_of (counted db date us))) <= 1 # 20.
Proof.
  intros Hpk Hq Hwf us.
  do 3 eexists. split; [apply handler_sqlite; eassumption|].
  rewrite breakdown_entries, employeeQuery_rows by exact Hpk.
  fold (listed db (jwt_id (req_user req)) (q_employee_id (req_query req))).
  fold us. split.
  - induction us as [|u us' IH]; cbn [map]; constructor; [|exact IH].
    split; [reflexivity|]. cbn [entry Emp.hours_worked]. apply tenth_close.
  - cbn [set_unique_clients_visited teamSummary Team.total_hours_worked].
    rewrite (round1_comp (y := Qsum (map hours_of (counted db date us))))
      by apply team_hours_sum.
    unfold round1, Math_round.
    rewrite (Qfloor_comp _ (10 * Qsum (map hours_of (counted db date us)) + (1 # 2)))
      by ring.
    apply tenth_close.
Qed.

End RowProps.

(* ================================================================== *)
(** * What a report does not depend on *)
(* ================================================================== *)

Module IsolationProps.
Import Sql SqlFacts QFacts Spec Reports ReportFacts DailySummary.
Import DateFacts HandlerFacts SummaryFacts.

Lemma handler_same_rows (db db' : database) (req : request) :
  (forall date, q_date (req_query req) = Some date ->
     employeeQuery db date (jwt_id (req_user req)) (q_employee_id (req_query req))
     = employeeQuery db' date (jwt_id (req_user req))
         (q_employee_id (req_query req)) /\
     uniqueClientsQuery db (jwt_id (req_user req)) date
     = uniqueClientsQuery db' (jwt_id (req_user req)) date) ->
  handler (sqlite db) req = handler (sqlite db') req.
Proof.
  intros H. unfold handler, try_catch, body_of.
  destruct (q_date (req_query req)) as [[|c s]|]; try reflexivity.
  destruct (dateRegex_test (String c s)); [|reflexivity]. cbn [negb].
  unfold bind, await_execute, ret. cbn [sqlite execute_employeeQuery execute_uniqueClients].
  destruct (H (String c s) eq_refl) as [-> ->]. reflexivity.
Qed.

Lemma filter_restrict (A : Type) (a q : A -> bool) (l : list A) :
  (forall x, In x l -> a x = true -> q x = true) ->
  filter a l = filter a (filter q l).
Proof.
  induction l as [|x l IH]; intros H; [reflexivity|]. cbn [filter].
  assert (IH' := IH (fun y Hy => H y (or_intror Hy))).
  destruct (a x) eqn:Ha.
  - rewrite (H x (or_introl eq_refl) Ha). cbn [filter]. rewrite Ha. now f_equal.
  - destruct (q x); cbn [filter]; rewrite ?Ha; exact IH'.
Qed.

Lemma filter_twice_restrict (A : Type) (a b q : A -> bool) (l : list A) :
  (forall x, a x = true -> q x = true) ->
  filter a (filter b l) = filter a (filter b (filter q l)).
Proof.
  intros H. induction l as [|x l IH]; [reflexivity|]. cbn [filter].
  destruct (q x) eqn:Hq; cbn [filter].
  - destruct (b x); cbn [filter]; [destruct (a x)|]; now rewrite IH.
  - destruct (b x); cbn [filter]; [|exact IH].
    destruct (a x) eqn:Ha; [|exact IH].
    rewrite (H x Ha) in Hq. discriminate.
Qed.

Lemma flat_map_on (A B : Type) (f g : A -> list B) (l : list A) :
  (forall a, In a l -> f a = g a) -> flat_map f l = flat_map g l.
Proof.
  induction l as [|a l IH]; intros H; [reflexivity|]. cbn [flat_map].
  rewrite (H a (or_introl eq_refl)). f_equal. apply IH.
  intros b Hb. apply H. now right.
Qed.

Lemma flat_map_skip (A B : Type) (f : A -> list B) (q : A -> bool) (l : list A) :
  (forall a, In a l -> q a = false -> f a = []) ->
  flat_map f l = flat_map f (filter q l).
Proof.
  induction l as [|a l IH]; intros H; [reflexivity|]. cbn [flat_map filter].
  assert (IH' := IH (fun b Hb => H b (or_intror Hb))).
  destruct (q a) eqn:Hq; cbn [flat_map].
  - now rewrite IH'.
  - rewrite (H a (or_introl eq_refl) Hq). exact IH'.
Qed.

Lemma employeeQuery_team_rows (db : database) (date : string) (manager : Z)
    (employee_id : option Z) :
  filter (employeeQuery_where manager employee_id)
    (left_join (employeeQuery_on date) (users db) (checkins db))
  = flat_map (left_rows (employeeQuery_on date) (team_checkins_on db manager date))
      (filter (selected manager employee_id) (users db)).
Proof.
  rewrite (filter_ext (employeeQuery_where manager employee_id)
             (fun row => selected manager employee_id (fst row))
             (where_reads_user manager employee_id)).
  rewrite (where_on_left (employeeQuery_on date) (checkins db)
             (selected manager employee_id)).
  apply flat_map_on. intros u Hu.
  apply filter_In in Hu. destruct Hu as [Hu Hsel].
  unfold left_rows, team_checkins_on.
  rewrite (filter_restrict (employeeQuery_on date u)
             (fun ch => existsb (fun u0 => (u_id u0 =? ch_employee_id ch)%Z
                                           && manager_is u0 manager) (users db)
                        && (DATE (ch_checkin_time ch) =? date)%string));
    [reflexivity|].
  intros ch _ Hon. unfold employeeQuery_on in Hon.
  apply andb_true_iff in Hon. destruct Hon as [Hid Hdate].
  rewrite Hdate, andb_true_r.
  apply existsb_exists. exists u. split; [exact Hu|]. rewrite Hid.
  unfold selected, employeeQuery_where in Hsel. cbn [fst] in Hsel.
  apply andb_true_iff in Hsel. destruct Hsel as [Hsel _].
  apply andb_true_iff in Hsel. destruct Hsel as [Hm _]. now rewrite Hm.
Qed.

Lemma uniqueClients_team_rows (db : database) (manager : Z) (date : string) :
  filter (fun r : checkin * user =>
            manager_is (snd r) manager
            && (DATE (ch_checkin_time (fst r)) =? date)%string)
    (inner_join (fun ch u => (ch_employee_id ch =? u_id u)%Z)
       (checkins db) (users db))
  = filter (fun r : checkin * user =>
              manager_is (snd r) manager
              && (DATE (ch_checkin_time (fst r)) =? date)%string)
      (inner_join (fun ch u => (ch_employee_id ch =? u_id u)%Z)
         (team_checkins_on db manager date) (users db)).
Proof.
  unfold inner_join. rewrite !where_blockwise.
  unfold team_checkins_on. apply flat_map_skip. intros ch _ Hout.
  cbn beta in Hout.
  apply filter_none. intros [ch' u0] Hrow.
  apply in_map_iff in Hrow. destruct Hrow as [u [[= <- <-] Hu]].
  apply filter_In in Hu. destruct Hu as [Hu Hid]. cbn [fst snd].
  destruct (manager_is u manager) eqn:Hm; [|reflexivity].
  destruct (DATE (ch_checkin_time ch) =? date)%string eqn:Hdate; [|reflexivity].
  exfalso. rewrite andb_true_r in Hout.
  assert (Hex : existsb (fun u0 => (u_id u0 =? ch_employee_id ch)%Z
                                   && manager_is u0 manager) (users db) = true).
  { apply existsb_exists. exists u. split; [exact Hu|].
    now rewrite Z.eqb_sym, Hid, Hm. }
  congruence.
Qed.

(** X8.  A report depends on the check-ins only through those made on the
    requested date by users who report to the caller: two stores with the
    same users that agree on these check-ins get the same response. *)
Theorem other_checkins_irrelevant (db db' : database) (req : request) :
  users db = users db' ->
  (forall date, q_date (req_query req) = Some date ->
     team_checkins_on db (jwt_id (req_user req)) date
     = team_checkins_on db' (jwt_id (req_user req)) date) ->
  handler (sqlite db) req = handler (sqlite db') req.
Proof.
  intros Husers Hteam. apply handler_same_rows. intros date Hq.
  specialize (Hteam date Hq). split.
  - unfold employeeQuery. rewrite !employeeQuery_team_rows.
    now rewrite Hteam, Husers.
  - unfold uniqueClientsQuery. rewrite !uniqueClients_team_rows.
    now rewrite Hteam, Husers.
Qed.

(** X9.  A report depends on the users only through those whose
    [manager_id] is the caller: two stores with the same check-ins that
    agree on these users get the same response. *)
Theorem other_teams_irrelevant (db db' : database) (req : request) :
  checkins db = checkins db' ->
  filter (fun u => manager_is u (jwt_id (req_user req))) (users db)
  = filter (fun u => manager_is u (jwt_id (req_user req))) (users db') ->
  handler (sqlite db) req = handler (sqlite db') req.
Proof.
  intros Hcheckins Hteam. apply handler_same_rows. intros date _.
  set (m := jwt_id (req_user req)) in *.
  set (f := q_employee_id (req_query req)).
  assert (Hsel : forall u, selected m f u = true -> manager_is u m = true).
  { intros u H. unfold selected, employeeQuery_where in H. cbn [fst] in H.
    apply andb_true_iff in H. destruct H as [H _].
    apply andb_true_iff in H. tauto. }
  split.
  - unfold employeeQuery.
    rewrite !(filter_ext (employeeQuery_where m f)
                (fun row => selected m f (fst row)) (where_reads_user m f)).
    rewrite (where_on_left (employeeQuery_on date) (checkins db) (selected m f)).
    rewrite (where_on_left (employeeQuery_on date) (checkins db') (selected m f)).
    rewrite (filter_restrict (selected m f) (fun u => manager_is u m) (users db))
      by (intros u _; apply Hsel).
    rewrite (filter_restrict (selected m f) (fun u => manager_is u m) (users db'))
      by (intros u _; apply Hsel).
    now rewrite Hteam, Hcheckins.
  - unfold uniqueClientsQuery. f_equal. f_equal. f_equal.
    unfold inner_join. rewrite !where_blockwise, Hcheckins.
    apply flat_map_on. intros ch _.
    assert (Hmap : forall l : list user,
              filter (fun r : checkin * user =>
                        manager_is (snd r) m
                        && (DATE (ch_checkin_time (fst r)) =? date)%string)
                (map (fun u => (ch, u)) l)
              = map (fun u => (ch, u))
                  (filter (fun u => manager_is u m
                                    && (DATE (ch_checkin_time ch) =? date)%string)
                     l)).
    { intros l. induction l as [|u l IH]; [reflexivity|]. cbn [map filter fst snd].
      destruct (manager_is u m && (DATE (ch_checkin_time ch) =? date)%string);
        cbn [map]; now rewrite IH. }
    rewrite !Hmap.
    rewrite (filter_twice_restrict
               (fun u => manager_is u m
                         && (DATE (ch_checkin_time ch) =? date)%string)
               (fun u => (ch_employee_id ch =? u_id u)%Z)
               (fun u => manager_is u m) (users db))
      by (intros u H; apply andb_true_iff in H; tauto).
    rewrite (filter_twice_restrict
               (fun u => manager_is u m
                         && (DATE (ch_checkin_time ch) =? date)%string)
               (fun u => (ch_employee_id ch =? u_id u)%Z)
               (fun u => manager_is u m) (users db'))
      by (intros u H; apply andb_true_iff in H; tauto).
    now rewrite Hteam.
Qed.

End IsolationProps.

(* ================================================================== *)
(** * The route behind its middleware *)
(* ================================================================== *)

Module RouteProps.
Import Spec DailySummary DateFacts HandlerFacts HandlerProps.

Section Verified.
Variable jwt_verify : string -> option jwt_user.

Lemma route_cases (pool : Pool) (req : raw_request) :
  (jwt_verify (token req) = None /\
   daily_summary_route jwt_verify pool req = (invalid_token, []))
  \/
  (exists user, jwt_verify (token req) = Some user /\
                jwt_role user <> "manager"%string /\
                daily_summary_route jwt_verify pool req = (manager_required, []))
  \/
  (exists user, jwt_verify (token req) = Some user /\
                jwt_role user = "manager"%string /\
                daily_summary_route jwt_verify pool req
                = handler pool {| req_user := user; req_query := raw_query req |}).
Proof.
  unfold daily_summary_route, authenticateToken, requireManager.
  destruct (jwt_verify (token req)) as [user|]; [|left; split; reflexivity].
  right. cbn [req_user].
  destruct (String.eqb_spec (jwt_role user) "manager") as [E|E]; cbn [negb].
  - right. exists user. repeat split. exact E.
  - left. exists user. repeat split. exact E.
Qed.

Lemma handler_not_forbidden (pool : Pool) (req : request) :
  status (fst (handler pool req)) <> 403%Z.
Proof.
  destruct (malformed_or_dated req) as [Hbad|[date [Hq Hwf]]].
  - destruct (handler_rejects pool req Hbad) as [-> | ->]; discriminate.
  - rewrite (handler_on_date pool req Hq Hwf).
    destruct (execute_employeeQuery pool date _ _);
      [destruct (execute_uniqueClients pool _ date)|]; discriminate.
Qed.

(** X10.  The route answers 403 exactly when the token does not verify or
    verifies to a user whose role is not ['manager']; the handler itself
    never answers 403. *)
Theorem forbidden_iff_not_manager (pool : Pool) (req : raw_request) :
  status (fst (daily_summary_route jwt_verify pool req)) = 403%Z
  <-> (forall user, jwt_verify (token req) = Some user ->
                    jwt_role user <> "manager"%string).
Proof.
  destruct (route_cases pool req)
    as [[Hnone ->]|[(user & Hsome & Hrole & ->)|(user & Hsome & Hrole & ->)]].
  - cbn. split; [|reflexivity]. intros _ user Hu. congruence.
  - cbn. split; [|reflexivity]. intros _ user' Hu. congruence.
  - split.
    + intros H403. exfalso. now apply (handler_not_forbidden _ _ H403).
    + intros H. exfalso. now apply (H user).
Qed.

(** X11.  Every statement the route makes the pool execute is executed for a
    caller whose token verifies to a manager, with the id of that token as
    the manager and with the date of the request, which is well formed. *)
Theorem statements_only_for_managers (pool : Pool) (req : raw_request)
    (call : sql_call) :
  In call (snd (daily_summary_route jwt_verify pool req)) ->
  exists user date,
    jwt_verify (token req) = Some user /\
    jwt_role user = "manager"%string /\
    q_date (raw_query req) = Some date /\
    YYYY_MM_DD date /\
    (call = Call_employeeQuery date (jwt_id user) (q_employee_id (raw_query req))
     \/ call = Call_uniqueClients (jwt_id user) date).
Proof.
  destruct (route_cases pool req)
    as [[Hnone ->]|[(user & Hsome & Hrole & ->)|(user & Hsome & Hrole & ->)]];
    try (cbn [snd In]; intros []).
  set (r := {| req_user := user; req_query := raw_query req |}).
  destruct (malformed_or_dated r) as [Hbad|[date [Hq Hwf]]].
  - destruct (handler_rejects pool r Hbad) as [-> | ->]; cbn [snd In]; intros [].
  - rewrite (handler_on_date pool r Hq Hwf). cbn [req_user req_query r].
    intros Hin. exists user, date. repeat split; try assumption.
    destruct (execute_employeeQuery pool date (jwt_id user)
                (q_employee_id (raw_query req)));
      [destruct (execute_uniqueClients pool (jwt_id user) date)|];
      cbn [snd In] in Hin; decompose [or] Hin; subst; auto; contradiction.
Qed.

End Verified.

End RouteProps.

(* ================================================================== *)
(** * The date pattern, read as a set of texts *)
(* ================================================================== *)

Module DatePatternProps.
Import Spec DateFacts.

(** X12.  [dateRegex] accepts exactly the texts made of four digits, a dash,
    two digits, a dash and two digits; in particular an accepted text has ten
    characters, and nothing may follow the day. *)
Theorem date_pattern_accepts_exactly (s : string) :
  (dateRegex_test s = true <-> YYYY_MM_DD s) /\
  (dateRegex_test s = true -> String.length s = 10%nat) /\
  (forall c, dateRegex_test s = true -> dateRegex_test (s ++ String c "") = false).
Proof.
  split; [apply dateRegex_test_spec|]. split.
  - intros H. apply dateRegex_test_spec in H.
    destruct H as (? & ? & ? & ? & ? & ? & ? & ? & _ & ->). reflexivity.
  - intros c H. apply dateRegex_test_spec in H.
    destruct H as (y1 & y2 & y3 & y4 & m1 & m2 & d1 & d2 & _ & ->).
    destruct (dateRegex_test _) eqn:E; [|reflexivity].
    apply dateRegex_test_spec in E.
    destruct E as (? & ? & ? & ? & ? & ? & ? & ? & _ & E). discriminate E.
Qed.

End DatePatternProps.

(* ================================================================== *)
(** * Check-in requests under every schedule *)
(* ================================================================== *)

Module ScheduleProps.
Import CheckIn CheckInProps.

Lemma advance_nth_cases (ledger : list checkin) (tasks : list task) (i : nat) :
  advance_nth ledger tasks i = (ledger, tasks) \/
  exists pre t post,
    tasks = pre ++ t :: post /\
    advance_nth ledger tasks i
    = (fst (advance ledger t), pre ++ snd (advance ledger t) :: post).
Proof.
  revert i. induction tasks as [|t tasks IH]; intros i; [left; reflexivity|].
  destruct i as [|i]; cbn [advance_nth].
  - right. exists [], t, tasks. split; [reflexivity|].
    destruct (advance ledger t); reflexivity.
  - destruct (IH i) as [->|(pre & t' & post & -> & ->)].
    + left. reflexivity.
    + right. exists (t :: pre), t', post. split; reflexivity.
Qed.

(** Number of requests answered with [o]. *)
Lemma count_outcome_split (o : outcome) (l1 l2 : list checkin)
    (pre post : list task) (t : task) :
  count_outcome o (l1, pre ++ t :: post)
  = (count_outcome o (l2, pre) + count_outcome o (l2, [t])
     + count_outcome o (l2, post))%nat.
Proof.
  unfold count_outcome, outcomes. cbn [snd].
  rewrite map_app, filter_app, length_app. cbn [map filter].
  destruct t as [| |[]]; destruct o; cbn [List.length app]; lia.
Qed.

Lemma count_outcome_le (o : outcome) (s : system) :
  (count_outcome o s <= List.length (snd s))%nat.
Proof.
  unfold count_outcome, outcomes.
  etransitivity; [apply filter_length_le|]. now rewrite length_map.
Qed.

Lemma run_length (schedule : list nat) (s : system) :
  List.length (snd (run schedule s)) = List.length (snd s).
Proof.
  revert s. induction schedule as [|i schedule IH]; intros s; [reflexivity|].
  cbn [run]. rewrite IH. apply advance_nth_length.
Qed.

Section OneEmployeeAnySchedule.
Variables employee client : Z.
Variable now : sqltime.
Variable initial : nat.

Lemma consistent_advance (s : system) (i : nat) :
  consistent employee initial s ->
  consistent employee initial (advance_nth (fst s) (snd s) i).
Proof.
  destruct s as [ledger tasks]. cbn [fst snd]. intros (Hall & Hcount & Hdown).
  destruct (advance_nth_cases ledger tasks i)
    as [->|(pre & t & post & -> & ->)]; [repeat split; assumption|].
  cbn [fst snd] in *.
  assert (Ht : of_employee employee t).
  { rewrite Forall_forall in Hall. apply Hall. apply in_elt. }
  assert (Hpre : Forall (of_employee employee) pre)
    by (apply Forall_app in Hall; tauto).
  assert (Hpost : Forall (of_employee employee) post).
  { apply Forall_app in Hall. destruct Hall as [_ Hall]. now inversion Hall. }
  rewrite (count_outcome_split Created ledger ledger) in Hcount.
  unfold consistent. cbn [fst snd].
  rewrite (count_outcome_split Created (fst (advance ledger t)) ledger).
  destruct t as [e c n|e c n|o]; cbn [of_employee] in Ht; try subst e;
    cbn [advance].
  - destruct (0 <? List.length (activeCheckins ledger employee))%nat eqn:E;
      cbn [fst snd].
    + apply Nat.ltb_lt in E. split; [|split].
      * apply Forall_app. split; [exact Hpre|]. constructor; [exact I|exact Hpost].
      * exact Hcount.
      * intros _. lia.
    + split; [|split].
      * apply Forall_app. split; [exact Hpre|].
        constructor; [reflexivity|exact Hpost].
      * exact Hcount.
      * intros Hin. apply Hdown. apply in_app_or in Hin.
        apply in_or_app. destruct Hin as [Hin|[Hin|Hin]];
          [now left|discriminate|right; now right].
  - cbn [fst snd]. rewrite active_after_insert. split; [|split].
    + apply Forall_app. split; [exact Hpre|]. constructor; [exact I|exact Hpost].
    + rewrite Hcount. unfold count_outcome, outcomes. cbn. lia.
    + intros _. lia.
  - cbn [fst snd]. split; [|split].
    + exact Hall.
    + exact Hcount.
    + exact Hdown.
Qed.

Lemma consistent_run (schedule : list nat) (s : system) :
  consistent employee initial s -> consistent employee initial (run schedule s).
Proof.
  revert s. induction schedule as [|i schedule IH]; intros s H; [exact H|].
  cbn [run]. apply IH. now apply consistent_advance.
Qed.

Lemma consistent_fire (n : nat) (ledger : list checkin) :
  List.length (activeCheckins ledger employee) = initial ->
  consistent employee initial (fire n ledger employee client now).
Proof.
  intros Hinit. unfold consistent, fire. cbn [fst snd]. split; [|split].
  - apply Forall_forall. intros t Ht. apply repeat_spec in Ht. subst t.
    reflexivity.
  - rewrite Hinit. unfold count_outcome, outcomes. cbn [snd].
    induction n as [|n IH]; [cbn; lia|]. cbn [repeat map filter request_for].
    exact IH.
  - intros Hin. apply repeat_spec in Hin. discriminate.
Qed.
End OneEmployeeAnySchedule.

(** X13.  Under every schedule, each successful request inserted exactly one
    open row and each other request none: the open check-ins of the employee
    are those there were plus the number of successes. *)
Theorem every_success_one_row (n : nat) (ledger : list checkin)
    (employee client : Z) (now : sqltime) (schedule : list nat) :
  let final := run schedule (fire n ledger employee client now) in
  List.length (activeCheckins (fst final) employee)
  = (List.length (activeCheckins ledger employee)
     + count_outcome Created final)%nat.
Proof.
  intros final.
  destruct (@consistent_run employee
              (List.length (activeCheckins ledger employee)) schedule
              (fire n ledger employee client now)) as (_ & H & _).
  - now apply consistent_fire.
  - exact H.
Qed.

(** X14.  Under every schedule that lets every request finish, at least one
    of [n >= 1] simultaneous requests of an employee without open check-in
    succeeds, and at most [n] do. *)
Theorem some_check_in_succeeds (n : nat) (ledger : list checkin)
    (employee client : Z) (now : sqltime) (schedule : list nat) :
  activeCheckins ledger employee = [] ->
  (1 <= n)%nat ->
  let final := run schedule (fire n ledger employee client now) in
  Forall answered (snd final) ->
  (1 <= count_outcome Created final <= n)%nat.
Proof.
  intros Hnone Hn final Hdone.
  assert (Hlen : List.length (snd final) = n).
  { subst final. rewrite run_length. unfold fire. cbn [snd]. apply repeat_length. }
  split; [|rewrite <- Hlen; apply count_outcome_le].
  destruct (@consistent_run employee 0 schedule
              (fire n ledger employee client now)) as (_ & Hcount & Hdown).
  { apply consistent_fire. now rewrite Hnone. }
  fold final in Hcount, Hdown. cbn [Nat.add] in Hcount.
  destruct (snd final) as [|t tasks] eqn:E; [cbn in Hlen; lia|].
  inversion Hdone as [|? ? Ht _]; subst.
  destruct t as [| |[|]]; cbn [answered] in Ht; try contradiction.
  - rewrite <- Hcount. apply Hdown. now left.
  - unfold count_outcome, outcomes. rewrite E. cbn. lia.
Qed.

(** X15.  When the employee already has an open check-in, every schedule
    leaves the ledger as it was: no request succeeds, and each request is
    either still waiting to read or answered [AlreadyCheckedIn]. *)
Theorem open_check_in_blocks_all (n : nat) (ledger : list checkin)
    (employee client : Z) (now : sqltime) (schedule : list nat) :
  activeCheckins ledger employee <> [] ->
  let final := run schedule (fire n ledger employee client now) in
  fst final = ledger /\
  count_outcome Created final = 0%nat /\
  Forall (fun t => t = request_for employee client now
                   \/ t = Done AlreadyCheckedIn) (snd final).
Proof.
  intros Hactive final. subst final.
  assert (Hstart : Forall (fun t => t = request_for employee client now
                                    \/ t = Done AlreadyCheckedIn)
                          (snd (fire n ledger employee client now))).
  { unfold fire. cbn [snd]. apply Forall_forall. intros t Ht.
    apply repeat_spec in Ht. now left. }
  assert (Hledger : fst (fire n ledger employee client now) = ledger)
    by reflexivity.
  revert Hstart Hledger. generalize (fire n ledger employee client now).
  induction schedule as [|i schedule IH]; intros s Htasks Hledger.
  - cbn [run]. split; [exact Hledger|]. split; [|exact Htasks].
    unfold count_outcome, outcomes.
    induction (snd s) as [|t tasks IHt]; [reflexivity|].
    inversion Htasks as [|? ? Ht Hrest]; subst. cbn [map filter].
    destruct Ht as [->| ->]; cbn; now apply IHt.
  - cbn [run]. apply IH.
    + destruct s as [l tasks]. cbn [fst snd] in *. subst l.
      destruct (advance_nth_cases ledger tasks i)
        as [->|(pre & t & post & -> & ->)]; [exact Htasks|].
      cbn [snd]. apply Forall_app in Htasks. destruct Htasks as [Hpre Htl].
      inversion Htl as [|? ? Ht Hpost]; subst.
      apply Forall_app. split; [exact Hpre|]. constructor; [|exact Hpost].
      destruct Ht as [->| ->]; cbn [request_for advance]; [|now right].
      destruct (activeCheckins ledger employee) as [|a rest];
        [contradiction|]. cbn. now right.
    + destruct s as [l tasks]. cbn [fst snd] in *. subst l.
      destruct (advance_nth_cases ledger tasks i)
        as [->|(pre & t & post & -> & ->)]; [reflexivity|].
      cbn [fst]. apply Forall_app in Htasks. destruct Htasks as [_ Htl].
      inversion Htl as [|? ? Ht _]; subst.
      destruct Ht as [->| ->]; cbn [request_for advance]; [|reflexivity].
      destruct (0 <? List.length (activeCheckins ledger employee))%nat;
        reflexivity.
Qed.

End ScheduleProps.

(* ================================================================== *)
(** * The [Counter] component *)
(* ================================================================== *)

Module CounterProps.
Import Counter.

Section Component.
Variable p : props.

Lemma after_snoc (events : list event) (e : event) :
  after p (events ++ [e]) = handle p e (after p events).
Proof. unfold after. now rewrite fold_left_app. Qed.

Lemma counter_ref_in_sync_facts (events : list event) :
  countRef (after p events) = count (after p events) /\
  doubled (after p events) = (count (after p events) * 2)%Z /\
  interval (after p events) = isRunning (after p events).
Proof.
  induction events as [|e events IH] using rev_ind.
  - repeat split.
  - rewrite after_snoc. destruct IH as (Href & Hmemo & Hint).
    destruct e; cbn [handle];
      [ | | |destruct (interval (after p events)) eqn:E];
      cbn [increment countRef count doubled interval isRunning];
      repeat split; try assumption; try reflexivity; congruence.
Qed.

(** X17.  After any sequence of events the ref holds the current count, the
    memoised double is twice the count and the interval is installed
    exactly while the component runs; so [Log] writes the current count. *)
Theorem counter_ref_in_sync (events : list event) :
  let s := after p events in
  countRef s = count s /\
  doubled s = (count s * 2)%Z /\
  interval s = isRunning s /\
  console (handle p ClickLog s) = console s ++ [Count_from_ref (count s)].
Proof.
  cbv zeta. destruct (counter_ref_in_sync_facts events) as (Href & Hmemo & Hint).
  repeat split; try assumption.
  cbn [handle console]. now rewrite Href.
Qed.







End Component.

End CounterProps.

(* ================================================================== *)
(** * The employee filter *)
(* ================================================================== *)

Module FilterProps.
Import Sql SqlFacts QFacts Spec Reports ReportFacts DailySummary.
Import DateFacts HandlerFacts SummaryFacts.

Lemma all_equal_short (l : list Z) (e : Z) :
  NoDup l -> (forall x, In x l -> x = e) -> (List.length l <= 1)%nat.
Proof.
  intros Hnd Hall. destruct l as [|x [|y l]]; cbn [List.length]; try lia.
  exfalso. inversion Hnd as [|? ? Hfresh _]; subst. apply Hfresh.
  rewrite (Hall x) by (now left). rewrite (Hall y) by (right; now left).
  now left.
Qed.

(** X20.  The employee filter selects and does not recompute: the breakdown
    of a filtered report holds exactly the entries of the unfiltered report
    of the same manager and date whose [employee_id] is the one asked for,
    and there is at most one. *)
Theorem filter_selects_entry (db : database) (manager employee : Z)
    (date : string) :
  users_pk db ->
  YYYY_MM_DD date ->
  exists ts bd log ts' bd' log',
    handler (sqlite db) (summary_request manager date (Some employee))
    = ({| status := 200; json := Report date ts bd |}, log) /\
    handler (sqlite db) (summary_request manager date None)
    = ({| status := 200; json := Report date ts' bd' |}, log') /\
    (forall x, In x bd <-> In x bd' /\ Emp.employee_id x = employee) /\
    (List.length bd <= 1)%nat.
Proof.
  intros Hpk Hwf.
  do 6 eexists.
  split; [apply handler_sqlite; [reflexivity|exact Hwf]|].
  split; [apply handler_sqlite; [reflexivity|exact Hwf]|].
  cbn [summary_request req_user req_query jwt_id q_employee_id].
  rewrite !breakdown_entries by exact Hpk. split.
  - intros x. rewrite !in_map_iff. split.
    + intros [u [<- Hu]]. apply in_listed in Hu. destruct Hu as [Hu [Hmanaged Hid]].
      split; [|exact Hid]. exists u. split; [reflexivity|].
      apply in_listed. repeat split; try assumption; apply Hmanaged.
    + intros [[u [<- Hu]] Hid]. apply in_listed in Hu.
      destruct Hu as [Hu [Hmanaged _]]. exists u. split; [reflexivity|].
      apply in_listed. repeat split; try assumption; apply Hmanaged.
  - rewrite length_map, <- (length_map u_id).
    apply all_equal_short with employee.
    + now apply listed_ids_distinct.
    + intros x Hx. apply in_map_iff in Hx. destruct Hx as [u [<- Hu]].
      apply in_listed in Hu. destruct Hu as [_ [_ Hid]]. exact Hid.
Qed.

(** X21.  A filter that names nobody among the managed employees of the
    caller (an unknown id, another manager's employee, the caller) is not an
    error: the answer is 200 with an empty breakdown and zero employees,
    check-ins and hours. *)
Theorem unknown_employee_empty_report (db : database) (req : request)
    (date : string) (employee : Z) :
  q_date (req_query req) = Some date ->
  YYYY_MM_DD date ->
  q_employee_id (req_query req) = Some employee ->
  (forall u, In u (users db) ->
             managed_employee (jwt_id (req_user req)) u -> u_id u <> employee) ->
  exists ts log,
    handler (sqlite db) req
    = ({| status := 200; json := Report date ts [] |}, log) /\
    Team.total_employees ts = 0%nat /\
    Team.employees_checked_in ts = 0%nat /\
    Team.total_checkins ts = 0%nat /\
    Team.total_hours_worked ts == 0.
Proof.
  intros Hq Hwf Hf Hnobody.
  assert (Hrows : employeeQuery db date (jwt_id (req_user req)) (Some employee)
                  = []).
  { unfold employeeQuery.
    rewrite (filter_ext (employeeQuery_where (jwt_id (req_user req)) (Some employee))
               (fun row => selected (jwt_id (req_user req)) (Some employee) (fst row))
               (where_reads_user (jwt_id (req_user req)) (Some employee))).
    rewrite (where_on_left (employeeQuery_on date) (checkins db)
               (selected (jwt_id (req_user req)) (Some employee))).
    rewrite filter_none; [reflexivity|].
    intros u Hu.
    destruct (selected (jwt_id (req_user req)) (Some employee) u) eqn:E;
      [|reflexivity].
    apply selected_in_scope in E. destruct E as [Hmanaged Hid].
    exfalso. now apply (Hnobody u Hu Hmanaged). }
  do 2 eexists. split.
  - rewrite (@handler_sqlite db req date Hq Hwf), Hf, Hrows. reflexivity.
  - cbn. repeat split; reflexivity.
Qed.

End FilterProps.

(* ================================================================== *)
(** * The further properties on the sample data *)
(* ================================================================== *)

Module MoreInstances.
Import Spec DailySummary DateFacts.
Import HandlerProps RowProps IsolationProps RouteProps ScheduleProps FilterProps.
Local Open Scope string_scope.

Ltac distinct_ids :=
  unfold users_pk; cbn;
  repeat (constructor; [cbn; intuition discriminate|]); constructor.

Ltac well_formed := apply dateRegex_test_spec; reflexivity.

Lemma team_totals_from_breakdown_witness :
  exists ts bd,
    report_of (fst (handler (sqlite Demo.db)
                      (summary_request 1 "2024-01-15" None)))
    = Some ("2024-01-15", ts, bd) /\
    Team.total_employees ts = List.length bd /\
    Team.total_checkins ts = list_sum (map Emp.total_checkins bd) /\
    Team.employees_checked_in ts
    = List.length (filter (fun e => (0 <? Emp.total_checkins e)%nat) bd) /\
    (Team.employees_checked_in ts <= Team.total_employees ts)%nat /\
    (Team.employees_checked_in ts <= Team.total_checkins ts)%nat.
Proof.
  do 2 eexists. split; [vm_compute; reflexivity|].
  eapply (@team_totals_from_breakdown (sqlite Demo.db)
            (summary_request 1 "2024-01-15" None)).
  - apply surjective_pairing.
  - vm_compute. reflexivity.
Defined.

Lemma clients_visited_bounds_witness :
  exists ts bd log,
    handler (sqlite Demo.db) (summary_request 1 "2024-01-15" None)
    = ({| status := 200; json := Report "2024-01-15" ts bd |}, log) /\
    Forall (fun e =>
              (Emp.clients_visited e <= Emp.total_checkins e)%nat /\
              (Emp.clients_visited e = 0%nat <-> Emp.total_checkins e = 0%nat) /\
              (Emp.total_checkins e = 0%nat -> Emp.hours_worked e == 0))
           bd.
Proof.
  apply (@clients_visited_bounds Demo.db
           (summary_request 1 "2024-01-15" None) "2024-01-15").
  - reflexivity.
  - well_formed.
Defined.

Lemma unique_clients_bounds_witness :
  exists ts bd log,
    handler (sqlite Demo.db) (summary_request 1 "2024-01-15" None)
    = ({| status := 200; json := Report "2024-01-15" ts bd |}, log) /\
    (Team.unique_clients_visited ts
     <= List.length (team_checkins_on Demo.db 1 "2024-01-15"))%nat /\
    (Team.unique_clients_visited ts = 0%nat
     <-> team_checkins_on Demo.db 1 "2024-01-15" = []).
Proof.
  apply (@unique_clients_bounds Demo.db
           (summary_request 1 "2024-01-15" None) "2024-01-15").
  - reflexivity.
  - well_formed.
Defined.

Lemma one_at_a_time_exactly_one_witness :
  let final := CheckIn.run (CheckIn.one_at_a_time 3)
                 (CheckIn.fire 3 [] 2 1 (Demo.jan15 9 0 0)) in
  CheckIn.count_outcome CheckIn.Created final = 1%nat /\
  CheckIn.count_outcome CheckIn.AlreadyCheckedIn final = 2%nat /\
  List.length (CheckIn.activeCheckins (fst final) 2) = 1%nat.
Proof.
  apply (@CheckInProps.one_at_a_time_exactly_one 2 [] 2 1 (Demo.jan15 9 0 0)).
  reflexivity.
Defined.

Lemma hours_never_negative_witness :
  exists ts bd log,
    handler (sqlite Demo.db) (summary_request 1 "2024-01-15" None)
    = ({| status := 200; json := Report "2024-01-15" ts bd |}, log) /\
    Forall (fun e => 0 <= Emp.hours_worked e) bd /\
    0 <= Team.total_hours_worked ts.
Proof.
  apply (@hours_never_negative Demo.db
           (summary_request 1 "2024-01-15" None) "2024-01-15").
  - reflexivity.
  - well_formed.
  - intros ch out Hch _ Hout. cbn in Hch.
    destruct Hch as [<-|[<-|[<-|[]]]]; cbn in Hout;
      try discriminate; injection Hout as <-; vm_compute; discriminate.
Defined.

Lemma entry_clients_le_unique_clients_witness :
  exists ts bd log,
    handler (sqlite Demo.db) (summary_request 1 "2024-01-15" (Some 2%Z))
    = ({| status := 200; json := Report "2024-01-15" ts bd |}, log) /\
    Forall (fun e => (Emp.clients_visited e <= Team.unique_clients_visited ts)%nat)
           bd.
Proof.
  apply (@entry_clients_le_unique_clients Demo.db
           (summary_request 1 "2024-01-15" (Some 2%Z)) "2024-01-15").
  - distinct_ids.
  - reflexivity.
  - well_formed.
Defined.

Lemma hours_within_three_minutes_witness :
  let us := listed Demo.db 1 None in
  exists ts bd log,
    handler (sqlite Demo.db) (summary_request 1 "2024-01-15" None)
    = ({| status := 200; json := Report "2024-01-15" ts bd |}, log) /\
    Forall2 (fun e u =>
               Emp.employee_id e = u_id u /\
               Qabs (Emp.hours_worked e
                     - Qsum (map hours_of (checkins_on Demo.db (u_id u) "2024-01-15")))
               <= 1 # 20)
            bd us /\
    Qabs (Team.total_hours_worked ts
          - Qsum (map hours_of (counted Demo.db "2024-01-15" us))) <= 1 # 20.
Proof.
  apply (@hours_within_three_minutes Demo.db
           (summary_request 1 "2024-01-15" None) "2024-01-15").
  - distinct_ids.
  - reflexivity.
  - well_formed.
Defined.

Lemma other_checkins_irrelevant_witness :
  handler (sqlite Demo.db) (summary_request 1 "2024-01-15" None)
  = handler (sqlite MoreDemo.db_more_checkins)
      (summary_request 1 "2024-01-15" None).
Proof.
  apply (@other_checkins_irrelevant Demo.db MoreDemo.db_more_checkins
           (summary_request 1 "2024-01-15" None)).
  - reflexivity.
  - intros date [= <-]. reflexivity.
Defined.

Lemma other_teams_irrelevant_witness :
  handler (sqlite Demo.db) (summary_request 1 "2024-01-15" None)
  = handler (sqlite MoreDemo.db_other_team)
      (summary_request 1 "2024-01-15" None).
Proof.
  apply (@other_teams_irrelevant Demo.db MoreDemo.db_other_team
           (summary_request 1 "2024-01-15" None)).
  - reflexivity.
  - reflexivity.
Defined.

Lemma statements_only_for_managers_witness :
  exists user date,
    Demo.jwt_verify (token (MoreDemo.manager_request "2024-01-15")) = Some user /\
    jwt_role user = "manager" /\
    q_date (raw_query (MoreDemo.manager_request "2024-01-15")) = Some date /\
    YYYY_MM_DD date /\
    (Call_uniqueClients 1 "2024-01-15"
     = Call_employeeQuery date (jwt_id user)
         (q_employee_id (raw_query (MoreDemo.manager_request "2024-01-15")))
     \/ Call_uniqueClients 1 "2024-01-15" = Call_uniqueClients (jwt_id user) date).
Proof.
  apply (@statements_only_for_managers Demo.jwt_verify (sqlite Demo.db)
           (MoreDemo.manager_request "2024-01-15")
           (Call_uniqueClients 1 "2024-01-15")).
  vm_compute. right. left. reflexivity.
Defined.

Lemma some_check_in_succeeds_witness :
  let final := CheckIn.run [0; 1; 1; 0]%nat
                 (CheckIn.fire 2 [] 2 1 (Demo.jan15 9 0 0)) in
  (1 <= CheckIn.count_outcome CheckIn.Created final <= 2)%nat.
Proof.
  apply (@some_check_in_succeeds 2 [] 2 1 (Demo.jan15 9 0 0) [0; 1; 1; 0]%nat).
  - reflexivity.
  - lia.
  - cbn. repeat constructor.
Defined.

Lemma open_check_in_blocks_all_witness :
  let final := CheckIn.run [0; 1; 0; 1]%nat
                 (CheckIn.fire 2 (checkins Demo.db) 2 1 (Demo.jan15 13 0 0)) in
  fst final = checkins Demo.db /\
  CheckIn.count_outcome CheckIn.Created final = 0%nat /\
  Forall (fun t => t = CheckIn.request_for 2 1 (Demo.jan15 13 0 0)
                   \/ t = CheckIn.Done CheckIn.AlreadyCheckedIn) (snd final).
Proof.
  apply (@open_check_in_blocks_all 2 (checkins Demo.db) 2 1
           (Demo.jan15 13 0 0) [0; 1; 0; 1]%nat).
  vm_compute. discriminate.
Defined.

Lemma filter_selects_entry_witness :
  exists ts bd log ts' bd' log',
    handler (sqlite Demo.db) (summary_request 1 "2024-01-15" (Some 2%Z))
    = ({| status := 200; json := Report "2024-01-15" ts bd |}, log) /\
    handler (sqlite Demo.db) (summary_request 1 "2024-01-15" None)
    = ({| status := 200; json := Report "2024-01-15" ts' bd' |}, log') /\
    (forall x, In x bd <-> In x bd' /\ Emp.employee_id x = 2%Z) /\
    (List.length bd <= 1)%nat.
Proof.
  apply (@filter_selects_entry Demo.db 1 2 "2024-01-15").
  - distinct_ids.
  - well_formed.
Defined.

Lemma unknown_employee_empty_report_witness :
  exists ts log,
    handler (sqlite MoreDemo.db_other_team)
      (summary_request 1 "2024-01-15" (Some 7%Z))
    = ({| status := 200; json := Report "2024-01-15" ts [] |}, log) /\
    Team.total_employees ts = 0%nat /\
    Team.employees_checked_in ts = 0%nat /\
    Team.total_checkins ts = 0%nat /\
    Team.total_hours_worked ts == 0.
Proof.
  apply (@unknown_employee_empty_report MoreDemo.db_other_team
           (summary_request 1 "2024-01-15" (Some 7%Z)) "2024-01-15" 7).
  - reflexivity.
  - well_formed.
  - reflexivity.
  - intros u Hu [Hm _]. cbn in Hu.
    destruct Hu as [<-|[<-|[<-|[<-|[<-|[]]]]]]; cbn in Hm |- *;
      discriminate.
Defined.

End MoreInstances.
